(** * ii-metalogue: the tree, the stream navigator and the editor state machine

    A shallow embedding of [src/ii.py] and [src/utils.py].  Python integers are
    [Z], Python strings are lists of characters, Python lists are [list]s, and
    the exceptions the code can raise are made explicit in a small error
    monad.  In-place mutation of the (uniquely owned) node objects is modelled
    by rebuilding the tree along the path to the mutated node. *)

From Stdlib Require Import ZArith Bool Ascii String List Lia Permutation.
Import ListNotations.
Open Scope Z_scope.

Set Implicit Arguments.

(** ** Exceptions *)

(** [IndexError] and [RecursionError] are the Python exceptions; the second
    is what [pickle.dump] raises on nodes nested deeper than the interpreter
    lets it recurse.  [NonTermination] is not an exception: it stands for a
    call that does not return, so that a run through it has no successor
    state either. *)
Inductive exn : Type :=
| IndexError
| RecursionError
| NonTermination.

Inductive result (A : Type) : Type :=
| Ok (a : A)
| Raise (e : exn).
Arguments Ok {A} a.
Arguments Raise {A} e.

Definition bind {A B} (m : result A) (k : A -> result B) : result B :=
  match m with
  | Ok a => k a
  | Raise e => Raise e
  end.

Notation "x <- m ;; k" := (bind m (fun x => k))
  (at level 61, m at next level, right associativity).
Notation "' pat <- m ;; k" := (bind m (fun x => match x with pat => k end))
  (at level 61, pat pattern, m at next level, right associativity).

Fixpoint foldM {A S} (f : S -> A -> result S) (l : list A) (s : S) : result S :=
  match l with
  | [] => Ok s
  | a :: l' => s' <- f s a ;; foldM f l' s'
  end.

(** ** Python sequences *)

Module Py.

Definition str := list ascii.

Definition lit (s : string) : str := list_ascii_of_string s.

Definition len {A} (l : list A) : Z := Z.of_nat (length l).

(** [range(n)]: empty when [n <= 0]. *)
Definition range (n : Z) : list Z := map Z.of_nat (seq 0 (Z.to_nat n)).

(** [l[i]]: a negative index counts from the end; out of range raises. *)
Definition getitem {A} (l : list A) (i : Z) : result A :=
  let j := if i <? 0 then i + len l else i in
  if (j <? 0) || (len l <=? j) then Raise IndexError
  else match nth_error l (Z.to_nat j) with
       | Some x => Ok x
       | None => Raise IndexError
       end.

(** A slice bound: negative bounds count from the end, then clamp. *)
Definition bound {A} (l : list A) (k : Z) : nat :=
  let j := if k <? 0 then k + len l else k in
  Z.to_nat (Z.min (Z.max j 0) (len l)).

(** [l[:k]] and [l[k:]]. *)
Definition slice_to {A} (l : list A) (k : Z) : list A := firstn (bound l k) l.
Definition slice_from {A} (l : list A) (k : Z) : list A := skipn (bound l k) l.

(** [a is b] on integers, as CPython evaluates it: integers from -5 to 256
    are shared objects, larger results of arithmetic and of [len] are fresh
    objects and never identical. *)
Definition is_int (a b : Z) : bool :=
  (a =? b) && (-5 <=? a) && (a <=? 256).

End Py.

(** ** Node *)

(** [time.time()] is read from the environment; its value is kept opaque. *)
Definition timestamp := Z.

Unset Elimination Schemes.
Inductive Node : Type :=
  mkNode {
      text : Py.str;
      children : list Node;
      creation_time : timestamp;
      id : Z;
      parent_id : option Z
    }.
Set Elimination Schemes.

(** The [parent] attribute of the source is a back reference to the owner of
    the node; in the tree-shaped model the owner is the enclosing node, and
    the attribute read from it, [parent_id], is stored. *)

Section Node_ind.
Variable P : Node -> Prop.
Hypothesis step : forall tx ch ct i pid,
    Forall P ch -> P (mkNode tx ch ct i pid).

Fixpoint Node_ind (n : Node) : P n :=
  match n with
  | mkNode tx ch ct i pid =>
      step tx ct i pid
        ((fix go (l : list Node) : Forall P l :=
            match l with
            | [] => Forall_nil P
            | c :: l' => Forall_cons c (Node_ind c) (go l')
            end) ch)
  end.
End Node_ind.

(** [Node.__init__]: the class variable [Node.node_id] is threaded through. *)
Definition Node_init (now : timestamp) (text : Py.str) (parent : option Node)
           (node_id : Z) : Node * Z :=
  (mkNode text [] now node_id
          (match parent with Some p => Some (id p) | None => None end),
   node_id + 1).

Definition add_child (self node : Node) : Node :=
  mkNode (text self) (children self ++ [node]) (creation_time self)
         (id self) (parent_id self).

(** ** Tree *)

Record Tree : Type :=
  mkTree {
      root : Node;
      current_stream : list Z
    }.

Definition Tree_init (now : timestamp) (node_id : Z) : Tree * Z :=
  let '(r, node_id') := Node_init now (Py.lit "") None node_id in
  (mkTree r [], node_id').

Definition node_at_index (self : Tree) (index : Z) : result Node :=
  foldM (fun node i =>
           step <- Py.getitem (current_stream self) i ;;
           Py.getitem (children node) step)
        (Py.range index) (root self).

(** The node objects are mutated in place in the source.  [modify_at n p f]
    rebuilds [n] with [f] applied to the node reached from [n] by the child
    indices [p], each read as Python reads [children[step]]. *)
Fixpoint replace_nth {A} (k : nat) (x : A) (l : list A) : list A :=
  match l, k with
  | [], _ => []
  | _ :: l', O => x :: l'
  | y :: l', S k' => y :: replace_nth k' x l'
  end.

Definition norm_index {A} (l : list A) (i : Z) : nat :=
  Z.to_nat (if i <? 0 then i + Py.len l else i).

Fixpoint modify_at (n : Node) (p : list Z) (f : Node -> Node) : result Node :=
  match p with
  | [] => Ok (f n)
  | step :: p' =>
      c <- Py.getitem (children n) step ;;
      c' <- modify_at c p' f ;;
      Ok (mkNode (text n) (replace_nth (norm_index (children n) step) c' (children n))
                 (creation_time n) (id n) (parent_id n))
  end.

Definition grow (now : timestamp) (self : Tree) (text : Py.str) (index : Z)
           (node_id : Z) : result (Tree * Z) :=
  selected_node <- node_at_index self index ;;
  let cs := Py.slice_to (current_stream self) index in
  let cs := cs ++ [Py.len (children selected_node)] in
  let '(new_node, node_id') := Node_init now text (Some selected_node) node_id in
  root' <- modify_at (root self)
                     (firstn (Z.to_nat index) (current_stream self))
                     (fun selected_node => add_child selected_node new_node) ;;
  Ok (mkTree root' cs, node_id').

(** The inner loop of [switch_stream]: [while node.children: ...].  It follows
    child 0 when [increment >= 0] and the last child otherwise, appending the
    index taken to the stream and, under [leaf_explore], adding one to
    [index] at each step.  The recursion is on the node itself; the equation
    [descend_eq] below restates it with the indexing of the source. *)
Fixpoint descend (increment : Z) (leaf_explore : bool) (node : Node)
         (cs : list Z) (index : Z) {struct node} : list Z * Z :=
  match node with
  | mkNode _ ch _ _ _ =>
      match ch with
      | [] => (cs, index)
      | c0 :: rest =>
          let index' := if leaf_explore then index + 1 else index in
          if increment >=? 0
          then descend increment leaf_explore c0 (cs ++ [0]) index'
          else
            (fix last_of (l : list Node) (r : list Z * Z) : list Z * Z :=
               match l with
               | [] => r
               | c :: l' =>
                   last_of l' (descend increment leaf_explore c
                                       (cs ++ [Py.len ch - 1]) index')
               end) rest
                    (descend increment leaf_explore c0
                             (cs ++ [Py.len ch - 1]) index')
      end
  end.

(** The outer loop [while index > 1]: [index] decreases by one per iteration,
    so the loop body runs at most [index - 1] times; [m] counts the remaining
    iterations and the guard [index > 1] holds exactly while [m] is not 0. *)
Fixpoint switch_loop (m : nat) (self : Tree) (index increment : Z)
         (leaf_explore : bool) (original_index : Z) : result (Tree * Z) :=
  match m with
  | O => Ok (self, original_index)
  | S m' =>
      parent <- node_at_index self (index - 1) ;;
      step <- Py.getitem (current_stream self) (index - 1) ;;
      let new_stream_at_index := step + increment in
      if (new_stream_at_index >=? 0)
         && (new_stream_at_index <? Py.len (children parent))
      then
        let cs := Py.slice_to (current_stream self) (index - 1)
                              ++ [new_stream_at_index] in
        node <- Py.getitem (children parent) new_stream_at_index ;;
        let '(cs', index') := descend increment leaf_explore node cs index in
        Ok (mkTree (root self) cs', index')
      else switch_loop m' self (index - 1) increment leaf_explore original_index
  end.

Definition switch_stream (self : Tree) (index increment : Z)
           (leaf_explore : bool) : result (Tree * Z) :=
  let leaf_explore :=
    if Py.is_int index (Py.len (current_stream self)) then true
    else leaf_explore in
  let original_index := index in
  switch_loop (Z.to_nat (index - 1)) self index increment leaf_explore
              original_index.

Record StreamItem : Type :=
  mkStreamItem {
      item_text : Py.str;
      num_before : Z;
      num_after : Z
    }.

Definition get_stream (self : Tree) : result (list StreamItem) :=
  r <- foldM (fun (st : Node * list StreamItem) step =>
                let '(node, stream) := st in
                let n := Py.len (children node) in
                node' <- Py.getitem (children node) step ;;
                Ok (node', stream ++ [mkStreamItem (text node') step (n - step - 1)]))
             (current_stream self) (root self, []) ;;
  Ok (snd r).

Record SiblingsItem : Type :=
  mkSiblingsItem {
      texts : list Py.str;
      nodes_to_left : Z
    }.

Definition get_stream_with_siblings (self : Tree) : result (list SiblingsItem) :=
  r <- foldM (fun (st : Node * list SiblingsItem) step =>
                let '(node, stream) := st in
                let stream := stream ++ [mkSiblingsItem (map text (children node)) step] in
                node' <- Py.getitem (children node) step ;;
                Ok (node', stream))
             (current_stream self) (root self, []) ;;
  Ok (snd r).

(** One row of the tabular export. *)
Record Row : Type :=
  mkRow {
      row_node_text : Py.str;
      row_parent_text : Py.str;
      row_creation_time : timestamp;
      row_depth : Z;
      row_node_id : Z;
      row_parent_id : option Z
    }.

Fixpoint collect_node_data (node : Node) (parent_text : Py.str)
         (data : list Row) (depth : Z) {struct node} : list Row :=
  match node with
  | mkNode tx ch ct i pid =>
      let data := data ++ [mkRow tx parent_text ct depth i pid] in
      fold_left (fun data child => collect_node_data child tx data (depth + 1))
                ch data
  end.

(** [export_tree_to_csv] hands [data] to the CSV writer, one line per row
    after the header; the rows written are the result here. *)
Definition export_tree_to_csv (self : Tree) : list Row :=
  let data := [] in
  collect_node_data (root self) (Py.lit "") data 0.

(** ** utils.text_wrap *)

(** [text.split(' ')]: the pieces between single spaces, empty ones kept. *)
Fixpoint split_space (s : Py.str) : list Py.str :=
  match s with
  | [] => [[]]
  | c :: s' =>
      if Ascii.eqb c " "%char then [] :: split_space s'
      else match split_space s' with
           | w :: ws => (c :: w) :: ws
           | [] => [[c]]
           end
  end.

(** Truth value of a string: nonempty. *)
Definition truthy (s : Py.str) : bool :=
  match s with [] => false | _ => true end.

(** [while len(word) > line_length: ...].  Each iteration cuts [line_length]
    characters off [word]; [fuel] bounds the iterations, and [None] is the
    loop that does not stop ([line_length <= 0]); see [text_wrap_total]. *)
Fixpoint wrap_long (fuel : nat) (line_length : Z) (lines : list Py.str)
         (line word : Py.str) : option (list Py.str * Py.str * Py.str) :=
  if Py.len word >? line_length then
    match fuel with
    | O => None
    | S fuel' =>
        let '(lines, line) :=
          if truthy line then (lines ++ [line], []) else (lines, line) in
        let lines := lines ++ [Py.slice_to word line_length] in
        let word := Py.slice_from word line_length in
        wrap_long fuel' line_length lines line word
    end
  else Some (lines, line, word).

Fixpoint wrap_words (line_length : Z) (words : list Py.str)
         (lines : list Py.str) (line : Py.str) : option (list Py.str * Py.str) :=
  match words with
  | [] => Some (lines, line)
  | word :: words' =>
      match wrap_long (length word) line_length lines line word with
      | None => None
      | Some (lines, line, word) =>
          if Py.len line + Py.len word + 1 >? line_length
          then wrap_words line_length words' (lines ++ [line]) word
          else wrap_words line_length words' lines
                          (line ++ (if truthy line then " "%char :: word else word))
      end
  end.

Definition text_wrap (text : Py.str) (line_length : Z) : option (list Py.str) :=
  let lines := [] in
  let words := split_space text in
  let line := [] in
  match wrap_words line_length words lines line with
  | None => None
  | Some (lines, line) => Some (lines ++ [line])
  end.

(** ** Editor *)

(** The keystroke delivered by the terminal: a named sequence
    ([key.is_sequence]), a character, or the empty keystroke of a timeout. *)
Inductive KeyName : Type :=
| KEY_ENTER | KEY_TAB | KEY_BACKSPACE | KEY_RIGHT | KEY_LEFT
| KEY_DOWN | KEY_UP | KEY_ESCAPE | KEY_OTHER.

Inductive Keystroke : Type :=
| Sequence (name : KeyName)
| Char (c : ascii)
| NoKey.

Record Editor : Type :=
  mkEditor {
      tree : Tree;
      node_id : Z;   (* the class variable Node.node_id *)
      reading_mode : bool;
      selected_index : Z;
      line_in_para : Z;
      current_text : Py.str;
      cursor_position : Z;
      column_width : Z;
      gap_width : Z;
      current_timer : Z;
      shuttle : list Py.str;
      show_shuttle : bool
    }.

Definition with_tree (t : Tree) (nid : Z) (e : Editor) : Editor :=
  mkEditor t nid (reading_mode e) (selected_index e) (line_in_para e)
           (current_text e) (cursor_position e) (column_width e) (gap_width e)
           (current_timer e) (shuttle e) (show_shuttle e).
Definition with_reading_mode (b : bool) (e : Editor) : Editor :=
  mkEditor (tree e) (node_id e) b (selected_index e) (line_in_para e)
           (current_text e) (cursor_position e) (column_width e) (gap_width e)
           (current_timer e) (shuttle e) (show_shuttle e).
Definition with_selected_index (i : Z) (e : Editor) : Editor :=
  mkEditor (tree e) (node_id e) (reading_mode e) i (line_in_para e)
           (current_text e) (cursor_position e) (column_width e) (gap_width e)
           (current_timer e) (shuttle e) (show_shuttle e).
Definition with_line_in_para (i : Z) (e : Editor) : Editor :=
  mkEditor (tree e) (node_id e) (reading_mode e) (selected_index e) i
           (current_text e) (cursor_position e) (column_width e) (gap_width e)
           (current_timer e) (shuttle e) (show_shuttle e).
Definition with_current_text (s : Py.str) (e : Editor) : Editor :=
  mkEditor (tree e) (node_id e) (reading_mode e) (selected_index e)
           (line_in_para e) s (cursor_position e) (column_width e) (gap_width e)
           (current_timer e) (shuttle e) (show_shuttle e).
Definition with_cursor_position (i : Z) (e : Editor) : Editor :=
  mkEditor (tree e) (node_id e) (reading_mode e) (selected_index e)
           (line_in_para e) (current_text e) i (column_width e) (gap_width e)
           (current_timer e) (shuttle e) (show_shuttle e).
Definition with_current_timer (i : Z) (e : Editor) : Editor :=
  mkEditor (tree e) (node_id e) (reading_mode e) (selected_index e)
           (line_in_para e) (current_text e) (cursor_position e)
           (column_width e) (gap_width e) i (shuttle e) (show_shuttle e).
Definition with_shuttle (l : list Py.str) (e : Editor) : Editor :=
  mkEditor (tree e) (node_id e) (reading_mode e) (selected_index e)
           (line_in_para e) (current_text e) (cursor_position e)
           (column_width e) (gap_width e) (current_timer e) l (show_shuttle e).

Definition returned {A} (o : option A) : result A :=
  match o with
  | Some a => Ok a
  | None => Raise NonTermination
  end.

Section Editor.

(** The command line option [--autoloop] (default: true). *)
Variable autoloop : bool.

Definition initial_timer : Z := if autoloop then 20 else 100.

(** [Editor.__init__]; the root node is the first node created, at time
    [now]. *)
Definition Editor_init (now : timestamp) : Editor :=
  let '(t, nid) := Tree_init now 0 in
  mkEditor t nid false 0 0 (Py.lit "") 0 35 5 initial_timer [] true.

Definition lines_in_current_para (self : Editor) : result Z :=
  stream <- get_stream (tree self) ;;
  item <- Py.getitem stream (selected_index self - 1) ;;
  lines <- returned (text_wrap (item_text item) (column_width self)) ;;
  Ok (1 + Py.len lines).

Definition set_reading_mode (self : Editor) : result Editor :=
  let self := with_reading_mode true self in
  let self := with_line_in_para 0 self in
  let self := with_current_text (Py.lit "") self in
  let self := with_cursor_position 0 self in
  let self := with_selected_index (selected_index self + 1) self in
  self <- (if selected_index self >? Py.len (current_stream (tree self))
           then
             r <- switch_stream (tree self) (selected_index self - 1) 1 true ;;
             Ok (with_selected_index 1 (with_tree (fst r) (node_id self) self))
           else Ok self) ;;
  Ok (with_current_timer initial_timer self).

Definition prev_line (self : Editor) : result Editor :=
  if reading_mode self then
    let self := with_line_in_para (line_in_para self - 1) self in
    if line_in_para self =? -1 then
      if selected_index self =? 1 then Ok (with_line_in_para 0 self)
      else
        let self := with_selected_index (selected_index self - 1) self in
        n <- lines_in_current_para self ;;
        Ok (with_line_in_para (n - 1) self)
    else Ok self
  else
    let self := with_reading_mode true self in
    n <- lines_in_current_para self ;;
    Ok (with_line_in_para (n - 1) self).

Definition next_para (self : Editor) (keep_in_reading_mode : bool) : Editor :=
  let self := with_line_in_para 0 self in
  if Py.is_int (selected_index self) (Py.len (current_stream (tree self))) then
    if keep_in_reading_mode then self
    else with_reading_mode false self
  else with_selected_index (selected_index self + 1) self.

Definition next_line (self : Editor) : result Editor :=
  if reading_mode self then
    let self := with_line_in_para (line_in_para self + 1) self in
    n <- lines_in_current_para self ;;
    if line_in_para self >=? n then Ok (next_para self false)
    else Ok self
  else
    let self := with_current_timer (current_timer self - 1) self in
    if current_timer self =? 0 then set_reading_mode self
    else Ok self.

Definition prev_para (self : Editor) : Editor :=
  let self := with_line_in_para 0 self in
  if selected_index self >? 1
  then with_selected_index (selected_index self - 1) self
  else self.

Definition submit_para (now : timestamp) (self : Editor) : result Editor :=
  r <- grow now (tree self) (current_text self) (selected_index self)
            (node_id self) ;;
  let self := with_tree (fst r) (snd r) self in
  let self := with_selected_index (selected_index self + 1) self in
  let self := with_current_text (Py.lit "") self in
  let self := with_cursor_position 0 self in
  Ok (with_current_timer initial_timer self).

Definition handle_keypress (now : timestamp) (key : Keystroke)
           (self : Editor) : result Editor :=
  match key with
  | Sequence name =>
      match name with
      | KEY_ENTER =>
          if reading_mode self then Ok (with_reading_mode false self)
          else if truthy (current_text self) then submit_para now self
          else if selected_index self <? Py.len (current_stream (tree self))
          then set_reading_mode self
          else Ok self
      | KEY_TAB =>
          if reading_mode self then Ok (next_para self false)
          else
            match current_stream (tree self) with
            | _ :: _ => set_reading_mode self
            | [] => Ok self
            end
      | KEY_BACKSPACE =>
          if truthy (current_text self) && negb (reading_mode self) then
            let self' :=
              with_current_text
                (Py.slice_to (current_text self) (cursor_position self - 1)
                 ++ Py.slice_from (current_text self) (cursor_position self))
                self in
            Ok (with_cursor_position (Z.max 0 (cursor_position self' - 1)) self')
          else Ok self
      | KEY_RIGHT =>
          if reading_mode self then
            r <- switch_stream (tree self) (selected_index self) 1 false ;;
            Ok (with_selected_index (snd r) (with_tree (fst r) (node_id self) self))
          else
            Ok (with_cursor_position
                  (Z.min (Py.len (current_text self)) (cursor_position self + 1))
                  self)
      | KEY_LEFT =>
          if reading_mode self then
            r <- switch_stream (tree self) (selected_index self) (-1) false ;;
            Ok (with_selected_index (snd r) (with_tree (fst r) (node_id self) self))
          else
            Ok (with_cursor_position (Z.max 0 (cursor_position self - 1)) self)
      | KEY_DOWN => next_line self
      | KEY_UP => prev_line self
      | KEY_ESCAPE =>
          if negb (reading_mode self) then
            self <- (if truthy (current_text self) then submit_para now self
                     else Ok self) ;;
            lines <- returned (text_wrap (current_text self) (column_width self)) ;;
            foldM (fun self _ => prev_line self)
                  (Py.range (1 + Py.len lines)) self
          else Ok self
      | KEY_OTHER => Ok self
      end
  | Char key =>
      self <- (if reading_mode self then
                 if Ascii.eqb key "j"%char || Ascii.eqb key "n"%char
                 then Ok (next_para self true)
                 else if Ascii.eqb key "k"%char || Ascii.eqb key "e"%char
                 then Ok (prev_para self)
                 else if Ascii.eqb key "h"%char || Ascii.eqb key "m"%char
                 then
                   r <- switch_stream (tree self) (selected_index self) (-1) false ;;
                   Ok (with_selected_index (snd r)
                         (with_tree (fst r) (node_id self) self))
                 else if Ascii.eqb key "l"%char || Ascii.eqb key "i"%char
                 then
                   r <- switch_stream (tree self) (selected_index self) 1 false ;;
                   Ok (with_selected_index (snd r)
                         (with_tree (fst r) (node_id self) self))
                 else if Ascii.eqb key "p"%char
                 then
                   stream <- get_stream (tree self) ;;
                   item <- Py.getitem stream (selected_index self - 1) ;;
                   Ok (with_shuttle (shuttle self ++ [item_text item]) self)
                 else Ok self
               else Ok self) ;;
      if negb (reading_mode self) then
        let self' :=
          with_current_text
            (Py.slice_to (current_text self) (cursor_position self)
             ++ [key]
             ++ Py.slice_from (current_text self) (cursor_position self))
            self in
        Ok (with_cursor_position (cursor_position self' + 1) self')
      else Ok self
  | NoKey => next_line self
  end.

(** The control loop: the events dispatched one after the other, each with
    the clock reading at its dispatch. *)
Definition dispatch_all (events : list (timestamp * Keystroke))
           (self : Editor) : result Editor :=
  foldM (fun self ev => handle_keypress (fst ev) (snd ev) self) events self.

Inductive reachable : Editor -> Prop :=
| reachable_init : forall now, reachable (Editor_init now)
| reachable_step : forall self now key self',
    reachable self ->
    handle_keypress now key self = Ok self' ->
    reachable self'.

End Editor.

(** ** The outline, start-up and shutdown *)

(** [print_tree] below one node: the [file_handle.write] calls are the list
    of strings written, in order.  The default [node=None] of the source is
    resolved once, in [print_tree]; every recursive call passes a node. *)
Fixpoint print_tree_from (node : Node) (prefix : Py.str)
         (file_handle : list Py.str) {struct node} : list Py.str :=
  match node with
  | mkNode tx ch _ _ _ =>
      let file_handle :=
        file_handle ++ [prefix ++ Py.lit "- " ++ tx ++ ["010"%char]] in
      let prefix := prefix ++ ["009"%char] in
      fold_left (fun file_handle child => print_tree_from child prefix file_handle)
                ch file_handle
  end.

Definition print_tree (self : Tree) (file_handle : list Py.str)
           (node : option Node) (prefix : Py.str) : result (list Py.str) :=
  node <- match node with
          | None => Py.getitem (children (root self)) 0
          | Some n => Ok n
          end ;;
  Ok (print_tree_from node prefix file_handle).

(** The loop of the start-up code after [pickle.load]:
    [while node.children: current_stream += [0]; node = node.children[0]]. *)
Fixpoint load_stream (node : Node) (current_stream : list Z) {struct node}
  : list Z :=
  match node with
  | mkNode _ ch _ _ _ =>
      match ch with
      | [] => current_stream
      | c0 :: _ => load_stream c0 (current_stream ++ [0])
      end
  end.

Section Session.

Variable autoloop : bool.

(** Start-up: the editor is built first (its [Tree()] takes id 0 from
    [Node.node_id]); [pickle] is the tree read from the pickle file, [None]
    for [FileNotFoundError].  Unpickling creates no node through
    [Node.__init__], so the counter is what the editor left it at. *)
Definition startup (now : timestamp) (pickle : option Tree) : Editor :=
  let editor := Editor_init autoloop now in
  match pickle with
  | Some loaded =>
      let t := mkTree (root loaded) [] in
      let t := mkTree (root t) (load_stream (root t) (current_stream t)) in
      with_tree t (node_id editor) editor
  | None => editor
  end.

(** [pickle.dump] belongs to the standard library, not to this program: it
    is taken as it comes, a call on the tree that either returns the contents
    of the [.pickle] file or raises.  It recurses along the [children] lists,
    and the interpreter answers with [RecursionError] once the fragments are
    chained deep enough; where that happens depends on the interpreter. *)
Variable Pickle : Type.
Variable pickle_dump : Tree -> result Pickle.

(** What the [KeyboardInterrupt] handler writes: the outline ([.md]), the
    contents of the [.pickle] file and the rows of the [.csv]. *)
Record Saved : Type :=
  mkSaved {
      saved_md : list Py.str;
      saved_pickle : Pickle;
      saved_csv : list Row
    }.

(** The handler, in the order of its statements: the pending text is
    submitted, the outline is written, the tree is pickled, the rows are
    exported.  An exception in one of them leaves the later ones undone. *)
Definition on_interrupt (now : timestamp) (editor : Editor) : result Saved :=
  editor <- (if truthy (current_text editor) then submit_para autoloop now editor
             else Ok editor) ;;
  md <- print_tree (tree editor) [] None (Py.lit "") ;;
  pickle <- pickle_dump (tree editor) ;;
  let csv := export_tree_to_csv (tree editor) in
  Ok (mkSaved md pickle csv).

End Session.

(** * Vocabulary of the statements *)

(** The node reached from [n] by the child indices [p]. *)
Fixpoint resolve (n : Node) (p : list Z) : result Node :=
  match p with
  | [] => Ok n
  | step :: p' => c <- Py.getitem (children n) step ;; resolve c p'
  end.

(** The test made at one level of the upward search: is the sibling index
    plus [increment] within the child range of that level's parent? *)
Definition sibling_check (self : Tree) (level increment : Z) : result bool :=
  parent <- node_at_index self (level - 1) ;;
  step <- Py.getitem (current_stream self) (level - 1) ;;
  Ok ((step + increment >=? 0) && (step + increment <? Py.len (children parent))).

(** The path invariant of the data model: the whole path resolves. *)
Definition path_valid (self : Tree) : Prop :=
  exists n, node_at_index self (Py.len (current_stream self)) = Ok n.

(** Leaf descent along the extremal branch, in the words of the
    specification: while the node has children, pick child index 0 if the
    direction is [>= 0], else the last child index.  The result is the list
    of the indices picked. *)
Fixpoint extremal_branch (direction : Z) (node : Node) {struct node} : list Z :=
  match node with
  | mkNode _ ch _ _ _ =>
      match ch with
      | [] => []
      | c0 :: rest =>
          if direction >=? 0 then 0 :: extremal_branch direction c0
          else
            (Py.len ch - 1)
              :: (fix last_of (l : list Node) (r : list Z) : list Z :=
                    match l with
                    | [] => r
                    | c :: l' => last_of l' (extremal_branch direction c)
                    end) rest (extremal_branch direction c0)
      end
  end.

(** [switch_stream] called [n] times in a row with the same arguments, each
    call on the tree the previous one left; the last call's result. *)
Fixpoint switch_stream_repeat (n : nat) (self : Tree) (index increment : Z)
         (leaf_explore : bool) : result (Tree * Z) :=
  match n with
  | O => switch_stream self index increment leaf_explore
  | S n' =>
      r <- switch_stream self index increment leaf_explore ;;
      switch_stream_repeat n' (fst r) index increment leaf_explore
  end.

(** ** Example trees *)

(** root -> A -> B: a single-child lineage, the path at B. *)
Definition lineage_tree : Tree :=
  mkTree
    (mkNode (Py.lit "") [
       mkNode (Py.lit "A") [
         mkNode (Py.lit "B") [] 12 2 (Some 1)
       ] 11 1 (Some 0)
     ] 10 0 None)
    [0; 0].

(** root -> A -> {B -> D -> E, C}: the path at E. *)
Definition climb_tree : Tree :=
  mkTree
    (mkNode (Py.lit "") [
       mkNode (Py.lit "A") [
         mkNode (Py.lit "B") [
           mkNode (Py.lit "D") [
             mkNode (Py.lit "E") [] 15 5 (Some 4)
           ] 14 4 (Some 2)
         ] 12 2 (Some 1);
         mkNode (Py.lit "C") [] 13 3 (Some 1)
       ] 11 1 (Some 0)
     ] 10 0 None)
    [0; 0; 0; 0].

(** root -> A -> {B -> D -> E, C -> F -> G}: the path at E; the lineage
    through C is as deep as the one through B. *)
Definition cousin_tree : Tree :=
  mkTree
    (mkNode (Py.lit "") [
       mkNode (Py.lit "A") [
         mkNode (Py.lit "B") [
           mkNode (Py.lit "D") [
             mkNode (Py.lit "E") [] 15 5 (Some 4)
           ] 14 4 (Some 2)
         ] 12 2 (Some 1);
         mkNode (Py.lit "C") [
           mkNode (Py.lit "F") [
             mkNode (Py.lit "G") [] 17 7 (Some 6)
           ] 16 6 (Some 3)
         ] 13 3 (Some 1)
       ] 11 1 (Some 0)
     ] 10 0 None)
    [0; 0; 0; 0].

(** root -> A -> {B -> D -> E -> X, C -> F}: the path at X; the lineage
    through C ends at depth 3. *)
Definition short_cousin_tree : Tree :=
  mkTree
    (mkNode (Py.lit "") [
       mkNode (Py.lit "A") [
         mkNode (Py.lit "B") [
           mkNode (Py.lit "D") [
             mkNode (Py.lit "E") [
               mkNode (Py.lit "X") [] 18 8 (Some 5)
             ] 15 5 (Some 4)
           ] 14 4 (Some 2)
         ] 12 2 (Some 1);
         mkNode (Py.lit "C") [
           mkNode (Py.lit "F") [] 16 6 (Some 3)
         ] 13 3 (Some 1)
       ] 11 1 (Some 0)
     ] 10 0 None)
    [0; 0; 0; 0; 0].

(** root -> {A, B}: the root has two children, the path at A. *)
Definition two_roots_tree : Tree :=
  mkTree
    (mkNode (Py.lit "") [
       mkNode (Py.lit "A") [] 11 1 (Some 0);
       mkNode (Py.lit "B") [] 12 2 (Some 0)
     ] 10 0 None)
    [0].

(** ** Measures of a tree *)

Fixpoint node_count (n : Node) : nat :=
  match n with
  | mkNode _ ch _ _ _ => S (list_sum (map node_count ch))
  end.

(** All the nodes of the tree under [n], in pre-order. *)
Fixpoint nodes (n : Node) : list Node :=
  match n with
  | mkNode _ ch _ _ _ => n :: flat_map nodes ch
  end.

(** The node at a position: the child numbers from [n] down to it. *)
Fixpoint lookup (n : Node) (q : list nat) : option Node :=
  match q with
  | [] => Some n
  | k :: q' =>
      match nth_error (children n) k with
      | Some c => lookup c q'
      | None => None
      end
  end.

(** What [grow] must leave alone in a node. *)
Definition same_record (m m' : Node) : Prop :=
  text m' = text m /\
  creation_time m' = creation_time m /\
  id m' = id m /\
  parent_id m' = parent_id m.

(** Every node of the tree was numbered by the counter [Node.node_id] before
    it reached [node_id]. *)
Definition ids_below (node_id : Z) (n : Node) : Prop :=
  Forall (fun m => id m < node_id) (nodes n).

(** A fresh tree, as [Tree()] builds it when the process starts. *)
Definition fresh_tree : Tree := fst (Tree_init 10 0).

(** ** The export, in the words of the specification *)

(** A pre-order traversal that emits one record (text, parent text, creation
    time, depth, id, parent id) for the node it starts at and for every node
    below it. *)
Fixpoint preorder_rows (node : Node) (parent_text : Py.str) (depth : Z)
  : list Row :=
  match node with
  | mkNode tx ch ct i pid =>
      mkRow tx parent_text ct depth i pid
        :: flat_map (fun child => preorder_rows child tx (depth + 1)) ch
  end.

(** The tree after [grow("hello", 0)] at time 20 on [fresh_tree]. *)
Definition hello_tree : Tree :=
  mkTree
    (mkNode (Py.lit "") [
       mkNode (Py.lit "hello") [] 20 1 (Some 0)
     ] 10 0 None)
    [0].

(** ** Runs of the editor *)

(** Timer-expiry events (the empty keystroke), dispatched at the given clock
    readings. *)
Definition timer_events (nows : list timestamp) : list (timestamp * Keystroke) :=
  map (fun now => (now, NoKey)) nows.

(** Characters typed one after the other, all at clock reading [now]. *)
Definition typed (now : timestamp) (s : string) : list (timestamp * Keystroke) :=
  map (fun c => (now, Char c)) (list_ascii_of_string s).

(** The path resolves and the selection is on the path or at its end. *)
Definition editor_ok (self : Editor) : Prop :=
  path_valid (tree self) /\
  0 <= selected_index self <= Py.len (current_stream (tree self)).

(** The bounds of the cursor within the text being written. *)
Definition cursor_in_text (self : Editor) : Prop :=
  0 <= cursor_position self <= Py.len (current_text self).

(** What a handler may do to the text being written: keep it and the cursor,
    or clear both. *)
Definition cursor_kept (e e' : Editor) : Prop :=
  current_text e' = current_text e /\ cursor_position e' = cursor_position e.

Definition cursor_cleared (e' : Editor) : Prop :=
  current_text e' = [] /\ cursor_position e' = 0.

(** The editor after "a" was typed into the initial state. *)
Definition typed_a_state : Editor :=
  with_cursor_position 1 (with_current_text (Py.lit "a") (Editor_init true 10)).

(** A text of 39 characters without a space: two display lines of the
    35-column layout. *)
Definition two_line_text : string :=
  "aaaaaaaaaaaaaaaaaaaaaaaaaaaaaaaaaaaabbb".

(** The trees a process builds, with the value of [Node.node_id] after each
    step: [Tree()] when the counter is 0, then calls of [grow] and of
    [switch_stream] that return. *)
Inductive created : Tree -> Z -> Prop :=
| created_init : forall now,
    created (fst (Tree_init now 0)) (snd (Tree_init now 0))
| created_grow : forall self node_id now text index self' node_id',
    created self node_id ->
    grow now self text index node_id = Ok (self', node_id') ->
    created self' node_id'
| created_switch : forall self node_id index increment leaf_explore self' index',
    created self node_id ->
    switch_stream self index increment leaf_explore = Ok (self', index') ->
    created self' node_id.

(** ** Vocabulary of the further properties *)

(** The current path ends at a node without children. *)
Definition at_leaf (self : Tree) : Prop :=
  exists leaf,
    node_at_index self (Py.len (current_stream self)) = Ok leaf /\
    children leaf = [].

(** root -> A -> {B, C}: the path at B (the scenario of the specification). *)
Definition hello_tree_siblings : Tree :=
  mkTree
    (mkNode (Py.lit "") [
       mkNode (Py.lit "A") [
         mkNode (Py.lit "B") [] 12 2 (Some 1);
         mkNode (Py.lit "C") [] 13 3 (Some 1)
       ] 11 1 (Some 0)
     ] 10 0 None)
    [0; 0].

(** The characters of a text other than spaces, in order. *)
Definition strip_spaces (s : Py.str) : Py.str :=
  filter (fun c => negb (Ascii.eqb c " "%char)) s.

(** The ids of the nodes under [n], in pre-order. *)
Definition ids (n : Node) : list Z := map id (nodes n).

(** Every child records the id of the node that owns it. *)
Definition links_ok (n : Node) : Prop :=
  forall q k p c,
    lookup n q = Some p ->
    nth_error (children p) k = Some c ->
    parent_id c = Some (id p).

(** The editor is on its path: the path resolves, the selection is one of
    its entries, and the column width admits wrapping. *)
Definition on_path (self : Editor) : Prop :=
  path_valid (tree self) /\
  1 <= selected_index self <= Py.len (current_stream (tree self)) /\
  1 <= column_width self.

(** The line of the outline for one export row: [base] tabs fewer than the
    depth of the row, then "- ", the text and a newline. *)
Definition outline_line (prefix : Py.str) (base : Z) (row : Row) : Py.str :=
  prefix ++ repeat "009"%char (Z.to_nat (row_depth row - base))
         ++ Py.lit "- " ++ row_node_text row ++ ["010"%char].

(** The editor in reading mode on "hello", the only fragment. *)
Definition reading_hello_state : Editor :=
  with_reading_mode true
    (with_selected_index 1 (with_tree hello_tree 2 (Editor_init true 10))).

(** * Properties *)

(** ** Python sequences and the error monad *)

Lemma bind_Ok_inv {A B} (m : result A) (k : A -> result B) (b : B) :
  bind m k = Ok b -> exists a, m = Ok a /\ k a = Ok b.
Proof.
  destruct m as [a|e]; simpl; intros H; [eauto | discriminate].
Qed.

Lemma foldM_app {A S} (f : S -> A -> result S) (l1 l2 : list A) (s : S) :
  foldM f (l1 ++ l2) s = bind (foldM f l1 s) (foldM f l2).
Proof.
  revert s; induction l1 as [|a l1 IH]; intros s; simpl; [reflexivity|].
  destruct (f s a); simpl; auto.
Qed.

Lemma len_nonneg {A} (l : list A) : 0 <= Py.len l.
Proof. unfold Py.len; lia. Qed.

Lemma len_app {A} (l1 l2 : list A) : Py.len (l1 ++ l2) = Py.len l1 + Py.len l2.
Proof. unfold Py.len; rewrite length_app; lia. Qed.

Lemma range_succ (n : Z) : 0 <= n -> Py.range (n + 1) = Py.range n ++ [n].
Proof.
  intros Hn; unfold Py.range.
  replace (Z.to_nat (n + 1)) with (S (Z.to_nat n)) by lia.
  rewrite seq_S, map_app; simpl.
  rewrite Z2Nat.id by lia; reflexivity.
Qed.

Lemma range_nonpos (n : Z) : n <= 0 -> Py.range n = [].
Proof.
  intros Hn; unfold Py.range.
  replace (Z.to_nat n) with O by lia; reflexivity.
Qed.

Lemma getitem_nonneg {A} (l : list A) (i : Z) :
  0 <= i ->
  Py.getitem l i = match nth_error l (Z.to_nat i) with
                   | Some x => Ok x
                   | None => Raise IndexError
                   end.
Proof.
  intros Hi; unfold Py.getitem.
  destruct (i <? 0) eqn:E; [lia|].
  destruct (i <? 0) eqn:E1; [lia|]; simpl.
  destruct (Py.len l <=? i) eqn:E2; [|reflexivity].
  destruct (nth_error l (Z.to_nat i)) eqn:E3; [|reflexivity].
  assert (nth_error l (Z.to_nat i) <> None) as E4 by congruence.
  apply nth_error_Some in E4; unfold Py.len in E2; lia.
Qed.

Lemma getitem_Ok_nonneg {A} (l : list A) (i : Z) (x : A) :
  0 <= i -> Py.getitem l i = Ok x -> nth_error l (Z.to_nat i) = Some x /\ i < Py.len l.
Proof.
  intros Hi H; rewrite getitem_nonneg in H by assumption.
  destruct (nth_error l (Z.to_nat i)) eqn:E; [|discriminate].
  split; [congruence|].
  assert (nth_error l (Z.to_nat i) <> None) as E4 by congruence.
  apply nth_error_Some in E4; unfold Py.len; lia.
Qed.

Lemma getitem_len_app {A} (l : list A) (x : A) :
  Py.getitem (l ++ [x]) (Py.len l) = Ok x.
Proof.
  rewrite getitem_nonneg by apply len_nonneg.
  unfold Py.len; rewrite Nat2Z.id, nth_error_app2, Nat.sub_diag by lia.
  reflexivity.
Qed.

Lemma getitem_in_range {A} (l : list A) (i : Z) :
  0 <= i < Py.len l -> exists x, Py.getitem l i = Ok x.
Proof.
  intros Hi; rewrite getitem_nonneg by lia.
  destruct (nth_error l (Z.to_nat i)) eqn:E; [eauto|].
  apply nth_error_None in E; unfold Py.len in Hi; lia.
Qed.

Lemma slice_to_nonneg {A} (l : list A) (k : Z) :
  0 <= k -> Py.slice_to l k = firstn (Z.to_nat k) l.
Proof.
  intros Hk; unfold Py.slice_to, Py.bound.
  destruct (k <? 0) eqn:E; [lia|].
  destruct (Z.le_gt_cases k (Py.len l)).
  - f_equal; lia.
  - replace (Z.to_nat (Z.min (Z.max k 0) (Py.len l))) with (length l)
      by (unfold Py.len in *; lia).
    rewrite firstn_all, firstn_all2; [reflexivity|unfold Py.len in *; lia].
Qed.

Lemma bound_spec {A} (l : list A) (k : Z) :
  Z.of_nat (Py.bound l k) =
    Z.min (Z.max (if k <? 0 then k + Py.len l else k) 0) (Py.len l).
Proof.
  unfold Py.bound. pose proof (len_nonneg l). lia.
Qed.

Lemma len_slice_to {A} (l : list A) (k : Z) :
  Py.len (Py.slice_to l k) = Z.of_nat (Py.bound l k).
Proof.
  unfold Py.slice_to, Py.len. rewrite length_firstn.
  pose proof (bound_spec l k) as H. unfold Py.len in H. lia.
Qed.

Lemma len_slice_from {A} (l : list A) (k : Z) :
  Py.len (Py.slice_from l k) = Py.len l - Z.of_nat (Py.bound l k).
Proof.
  unfold Py.slice_from, Py.len. rewrite length_skipn.
  pose proof (bound_spec l k) as H. unfold Py.len in H. lia.
Qed.

(** ** Resolving a path *)


Lemma resolve_app (n : Node) (p q : list Z) :
  resolve n (p ++ q) = bind (resolve n p) (fun m => resolve m q).
Proof.
  revert n; induction p as [|s p IH]; intros n; simpl; [reflexivity|].
  destruct (Py.getitem (children n) s); simpl; auto.
Qed.

Lemma node_at_index_succ (self : Tree) (k : Z) :
  0 <= k ->
  node_at_index self (k + 1) =
    (node <- node_at_index self k ;;
     step <- Py.getitem (current_stream self) k ;;
     Py.getitem (children node) step).
Proof.
  intros Hk; unfold node_at_index.
  rewrite range_succ, foldM_app by assumption.
  destruct (foldM _ (Py.range k) (root self)) as [node|e]; simpl; [|reflexivity].
  destruct (Py.getitem (current_stream self) k); simpl; [|reflexivity].
  destruct (Py.getitem (children node) a); reflexivity.
Qed.

Lemma node_at_index_nonpos (self : Tree) (k : Z) :
  k <= 0 -> node_at_index self k = Ok (root self).
Proof.
  intros Hk; unfold node_at_index; rewrite range_nonpos by assumption.
  reflexivity.
Qed.

Lemma firstn_succ_nth {A} (l : list A) (n : nat) (x : A) :
  nth_error l n = Some x -> firstn (S n) l = firstn n l ++ [x].
Proof.
  revert n; induction l as [|a l IH]; intros [|n] H; simpl in *;
    try discriminate.
  - congruence.
  - f_equal; auto.
Qed.

Lemma node_at_index_resolve (self : Tree) (k : nat) :
  (k <= length (current_stream self))%nat ->
  node_at_index self (Z.of_nat k) =
    resolve (root self) (firstn k (current_stream self)).
Proof.
  induction k as [|k IH]; intros Hk.
  - reflexivity.
  - replace (Z.of_nat (S k)) with (Z.of_nat k + 1) by lia.
    rewrite node_at_index_succ, IH by lia.
    destruct (nth_error (current_stream self) k) as [x|] eqn:E.
    + rewrite (firstn_succ_nth _ _ E), resolve_app.
      destruct (resolve _ _) as [m|e]; simpl; [|reflexivity].
      rewrite getitem_nonneg, Nat2Z.id, E by lia; simpl.
      destruct (Py.getitem (children m) x); reflexivity.
    + apply nth_error_None in E; lia.
Qed.

(** A prefix of a path that resolves resolves. *)
Lemma node_at_index_prefix (self : Tree) (k j : Z) (n : Node) :
  node_at_index self k = Ok n -> j <= k ->
  exists m, node_at_index self j = Ok m.
Proof.
  intros H Hj.
  destruct (Z.le_gt_cases j 0) as [Hj0|Hj0].
  { rewrite node_at_index_nonpos by assumption; eauto. }
  assert (0 <= k - j) as Hd by lia.
  replace k with (j + (k - j)) in H by lia.
  revert H; generalize dependent n.
  pattern (k - j); apply natlike_ind; [| |exact Hd].
  - intros n H; rewrite Z.add_0_r in H; eauto.
  - intros d Hd0 IH n H.
    replace (j + Z.succ d) with ((j + d) + 1) in H by lia.
    rewrite node_at_index_succ in H by lia.
    apply bind_Ok_inv in H as (m & Hm & _); eauto.
Qed.

(** A path that resolves to depth [k >= 1] has at least [k] entries. *)
Lemma node_at_index_length (self : Tree) (k : Z) (n : Node) :
  node_at_index self k = Ok n -> k <= Z.max 0 (Py.len (current_stream self)).
Proof.
  intros H.
  destruct (Z.le_gt_cases k 0) as [Hk|Hk]; [pose proof (len_nonneg (current_stream self)); lia|].
  replace k with ((k - 1) + 1) in H by lia.
  rewrite node_at_index_succ in H by lia.
  apply bind_Ok_inv in H as (m & _ & H).
  apply bind_Ok_inv in H as (s & Hs & _).
  apply getitem_Ok_nonneg in Hs; lia.
Qed.

(** ** The stream navigator *)


Lemma last_cons_default {A} (rest : list A) (c d : A) :
  last (c :: rest) d = last rest c.
Proof.
  revert c d; induction rest as [|c' rest IH]; intros c d; [reflexivity|].
  change (last (c :: c' :: rest) d) with (last (c' :: rest) d).
  rewrite (IH c' d), (IH c' c); reflexivity.
Qed.

Lemma last_of_last {R} (g : Node -> R) (rest : list Node) (c0 : Node) :
  (fix last_of (l : list Node) (r : R) : R :=
     match l with
     | [] => r
     | c :: l' => last_of l' (g c)
     end) rest (g c0) = g (last rest c0).
Proof.
  revert c0; induction rest as [|c rest IH]; intros c0; [reflexivity|].
  rewrite IH, last_cons_default; reflexivity.
Qed.

Lemma Forall_last {A} (P : A -> Prop) (c0 : A) (rest : list A) :
  Forall P (c0 :: rest) -> P (last rest c0).
Proof.
  intros H; inversion H as [|? ? H0 Hr]; subst; clear H.
  revert c0 H0; induction Hr as [|c rest Hc Hr IH]; intros c0 H0; [exact H0|].
  rewrite last_cons_default. apply IH. exact Hc.
Qed.

(** The loop equation of [descend]: one iteration of [while node.children]. *)
Lemma descend_eq (increment : Z) (leaf_explore : bool) tx c0 rest ct i pid
      (cs : list Z) (index : Z) :
  descend increment leaf_explore (mkNode tx (c0 :: rest) ct i pid) cs index =
    descend increment leaf_explore
            (if increment >=? 0 then c0 else last rest c0)
            (cs ++ [if increment >=? 0 then 0 else Py.len (c0 :: rest) - 1])
            (if leaf_explore then index + 1 else index).
Proof.
  simpl. destruct (increment >=? 0); [reflexivity|].
  apply (last_of_last
           (fun c => descend increment leaf_explore c
                             (cs ++ [Py.len (c0 :: rest) - 1])
                             (if leaf_explore then index + 1 else index))).
Qed.

Lemma extremal_branch_eq (direction : Z) tx c0 rest ct i pid :
  extremal_branch direction (mkNode tx (c0 :: rest) ct i pid) =
    (if direction >=? 0 then 0 else Py.len (c0 :: rest) - 1)
      :: extremal_branch direction
           (if direction >=? 0 then c0 else last rest c0).
Proof.
  simpl. destruct (direction >=? 0); [reflexivity|].
  f_equal. apply (last_of_last (extremal_branch direction)).
Qed.

(** The children picked by the source, [node.children[0]] and
    [node.children[-1]], are the ones [descend] follows. *)
Lemma getitem_first_last (c0 : Node) (rest : list Node) :
  Py.getitem (c0 :: rest) 0 = Ok c0 /\
  Py.getitem (c0 :: rest) (-1) = Ok (last rest c0).
Proof.
  split; [reflexivity|].
  unfold Py.getitem.
  replace (-1 <? 0) with true by reflexivity.
  assert (Py.len (c0 :: rest) = Z.of_nat (length rest) + 1) as ->
      by (unfold Py.len; simpl length; lia).
  replace (-1 + (Z.of_nat (length rest) + 1)) with (Z.of_nat (length rest)) by lia.
  destruct (Z.of_nat (length rest) <? 0) eqn:E1; [apply Z.ltb_lt in E1; lia|].
  destruct (Z.of_nat (length rest) + 1 <=? Z.of_nat (length rest)) eqn:E2;
    [apply Z.leb_le in E2; lia|].
  simpl orb. cbv iota.
  rewrite Nat2Z.id.
  enough (nth_error (c0 :: rest) (length rest) = Some (last rest c0)) as -> by reflexivity.
  clear. revert c0; induction rest as [|c rest IH]; intros c0; [reflexivity|].
  rewrite last_cons_default. exact (IH c).
Qed.

(** Closed form of the inner loop. *)
Lemma descend_spec (increment : Z) (leaf_explore : bool) (node : Node) :
  forall (cs : list Z) (index : Z),
    descend increment leaf_explore node cs index =
      (cs ++ extremal_branch increment node,
       if leaf_explore then index + Py.len (extremal_branch increment node)
       else index).
Proof.
  induction node as [tx ch ct i pid IH] using Node_ind; intros cs index.
  destruct ch as [|c0 rest].
  - simpl. rewrite app_nil_r. destruct leaf_explore; f_equal; unfold Py.len; simpl; lia.
  - rewrite descend_eq, extremal_branch_eq.
    assert (forall cs' index',
               descend increment leaf_explore
                       (if increment >=? 0 then c0 else last rest c0) cs' index' =
                 (cs' ++ extremal_branch increment
                      (if increment >=? 0 then c0 else last rest c0),
                  if leaf_explore
                  then index' + Py.len (extremal_branch increment
                                          (if increment >=? 0 then c0 else last rest c0))
                  else index')) as Hc.
    { destruct (increment >=? 0).
      - inversion IH; subst; assumption.
      - apply (Forall_last (P := fun n => forall cs index, descend increment leaf_explore n cs index = _) IH). }
    rewrite Hc, <- app_assoc. simpl.
    destruct leaf_explore; f_equal.
    unfold Py.len; simpl length. lia.
Qed.

(** The upward search finds nothing: the loop falls through. *)
Lemma switch_loop_exhausted (self : Tree) (increment : Z) (leaf_explore : bool)
      (original_index : Z) :
  forall (m : nat) (index : Z),
    m = Z.to_nat (index - 1) ->
    (forall k, 2 <= k <= index -> sibling_check self k increment = Ok false) ->
    switch_loop m self index increment leaf_explore original_index =
      Ok (self, original_index).
Proof.
  induction m as [|m IH]; intros index Hm Hno; [reflexivity|].
  simpl.
  assert (2 <= index <= index) as Hi by lia.
  specialize (Hno index Hi) as Hk. unfold sibling_check in Hk.
  destruct (node_at_index self (index - 1)) as [parent|e]; [|discriminate].
  simpl in Hk |- *.
  destruct (Py.getitem (current_stream self) (index - 1)) as [step|e]; [|discriminate].
  simpl in Hk |- *.
  injection Hk as Hk. rewrite Hk.
  apply IH; [lia|]. intros k Hk'. apply Hno. lia.
Qed.

(** The upward search stops at the deepest level [j] that has a sibling. *)
Lemma switch_loop_found (self : Tree) (increment : Z) (leaf_explore : bool)
      (original_index j : Z) (parent node : Node) (step : Z) :
  node_at_index self (j - 1) = Ok parent ->
  Py.getitem (current_stream self) (j - 1) = Ok step ->
  Py.getitem (children parent) (step + increment) = Ok node ->
  sibling_check self j increment = Ok true ->
  forall (m : nat) (index : Z),
    m = Z.to_nat (index - 1) ->
    2 <= j <= index ->
    (forall k, j < k <= index -> sibling_check self k increment = Ok false) ->
    switch_loop m self index increment leaf_explore original_index =
      Ok (mkTree (root self)
                 (Py.slice_to (current_stream self) (j - 1)
                    ++ [step + increment]
                    ++ extremal_branch increment node),
          if leaf_explore
          then j + Py.len (extremal_branch increment node)
          else j).
Proof.
  intros Hp Hs Hn Hj.
  induction m as [|m IH]; intros index Hm Hji Hno; [lia|].
  simpl.
  destruct (Z.eq_dec index j) as [->|Hne].
  - rewrite Hp; simpl. rewrite Hs; simpl.
    unfold sibling_check in Hj. rewrite Hp in Hj; simpl in Hj.
    rewrite Hs in Hj; simpl in Hj. injection Hj as Hj. rewrite Hj.
    rewrite Hn; simpl. rewrite descend_spec, <- app_assoc. reflexivity.
  - assert (j < index <= index) as Hi by lia.
    specialize (Hno index Hi) as Hk. unfold sibling_check in Hk.
    destruct (node_at_index self (index - 1)) as [parent'|e]; [|discriminate].
    simpl in Hk |- *.
    destruct (Py.getitem (current_stream self) (index - 1)) as [step'|e]; [|discriminate].
    simpl in Hk |- *.
    injection Hk as Hk. rewrite Hk.
    apply IH; [lia|lia|]. intros k Hk'. apply Hno. lia.
Qed.

(** When the test at level [j] succeeds, the three reads of the loop body
    succeed. *)
Lemma sibling_check_true (self : Tree) (j increment : Z) :
  sibling_check self j increment = Ok true ->
  exists parent step node,
    node_at_index self (j - 1) = Ok parent /\
    Py.getitem (current_stream self) (j - 1) = Ok step /\
    0 <= step + increment < Py.len (children parent) /\
    Py.getitem (children parent) (step + increment) = Ok node.
Proof.
  unfold sibling_check; intros H.
  destruct (node_at_index self (j - 1)) as [parent|e]; [|discriminate].
  simpl in H.
  destruct (Py.getitem (current_stream self) (j - 1)) as [step|e]; [|discriminate].
  simpl in H. injection H as H.
  apply andb_true_iff in H as [H1 H2].
  apply Z.geb_le in H1. apply Z.ltb_lt in H2.
  destruct (getitem_in_range (children parent) (i := step + increment)) as [node Hn]; [lia|].
  exists parent, step, node. repeat split; auto; lia.
Qed.

(** With a resolving path every level from 2 to the path length can be
    tested. *)
Lemma sibling_check_defined (self : Tree) (k increment : Z) :
  path_valid self ->
  2 <= k <= Py.len (current_stream self) ->
  exists b, sibling_check self k increment = Ok b.
Proof.
  intros [n Hn] Hk. unfold sibling_check.
  destruct (node_at_index_prefix self (j := k - 1) Hn) as [parent Hp]; [lia|].
  rewrite Hp; simpl.
  destruct (getitem_in_range (current_stream self) (i := k - 1)) as [step Hs]; [lia|].
  rewrite Hs; simpl. eauto.
Qed.

Lemma is_int_lt (a b : Z) : a < b -> Py.is_int a b = false.
Proof.
  intros H; unfold Py.is_int.
  destruct (a =? b) eqn:E; [apply Z.eqb_eq in E; lia|reflexivity].
Qed.

(** C6.  When the upward search of [switch_stream] finds no valid sibling at
    any level it examines, the call is a no-op and not an error: it returns
    normally, the tree and its current path are unchanged and the depth
    returned is the depth passed in.  Hence any number of repeated calls with
    the same arguments leaves the path and the returned depth fixed. *)
Theorem switch_stream_no_sibling_noop
        (self : Tree) (depth direction : Z) (leaf_explore : bool) :
  (forall k, 2 <= k <= depth -> sibling_check self k direction = Ok false) ->
  switch_stream self depth direction leaf_explore = Ok (self, depth) /\
  forall n, switch_stream_repeat n self depth direction leaf_explore
            = Ok (self, depth).
Proof.
  intros Hno.
  assert (switch_stream self depth direction leaf_explore = Ok (self, depth)) as H1.
  { unfold switch_stream. apply switch_loop_exhausted; [reflexivity|assumption]. }
  split; [exact H1|].
  induction n as [|n IH]; simpl; [exact H1|].
  rewrite H1; simpl. exact IH.
Qed.

Lemma switch_stream_no_sibling_noop_witness :
  (forall k, 2 <= k <= 2 -> sibling_check lineage_tree k 1 = Ok false) /\
  (switch_stream lineage_tree 2 1 false = Ok (lineage_tree, 2) /\
   forall n, switch_stream_repeat n lineage_tree 2 1 false
             = Ok (lineage_tree, 2)).
Proof.
  assert (forall k, 2 <= k <= 2 -> sibling_check lineage_tree k 1 = Ok false) as H.
  { intros k Hk. assert (k = 2) as -> by lia. reflexivity. }
  split; [exact H|].
  apply (@switch_stream_no_sibling_noop lineage_tree 2 1 false H).
Defined.

(** The result of [switch_stream] when the deepest level with a valid
    sibling is [j]. *)
Lemma switch_stream_found (self : Tree) (depth direction j : Z)
      (leaf_explore : bool) :
  2 <= j <= depth ->
  sibling_check self j direction = Ok true ->
  (forall k, j < k <= depth -> sibling_check self k direction = Ok false) ->
  exists parent step node,
    node_at_index self (j - 1) = Ok parent /\
    Py.getitem (current_stream self) (j - 1) = Ok step /\
    Py.getitem (children parent) (step + direction) = Ok node /\
    switch_stream self depth direction leaf_explore =
      Ok (mkTree (root self)
                 (Py.slice_to (current_stream self) (j - 1)
                    ++ [step + direction]
                    ++ extremal_branch direction node),
          if (if Py.is_int depth (Py.len (current_stream self))
              then true else leaf_explore)
          then j + Py.len (extremal_branch direction node)
          else j).
Proof.
  intros Hj Hc Hno.
  destruct (sibling_check_true _ _ _ Hc) as (parent & step & node & Hp & Hs & _ & Hn).
  exists parent, step, node. repeat split; auto.
  unfold switch_stream.
  apply (switch_loop_found self direction _ depth Hp Hs Hn Hc);
    [reflexivity|assumption|assumption].
Qed.

(** C2 (the code differs).  On [cousin_tree] the path is at E and depth 3 is
    on it.  [switch_stream(3, +1, False)] finds no sibling at level 3, climbs
    to level 2, switches there from B to C and descends to G.  The new path
    [[0; 1; 0; 0]] has a node at depth 3 (the node F), yet the call returns 2,
    the level it climbed to, and not the depth 3 it was given.  On
    [short_cousin_tree], where the new lineage ends above the depth asked
    for, the call at depth 4 returns 2 as well, and not the depth 3 of the new
    leaf.  The docstring of [switch_stream] lets the returned index differ
    from the current one only when the tree terminates before it descends to
    the current index, and then it is the index of the leaf. *)
Theorem switch_stream_returns_climbed_level :
  path_valid cousin_tree /\
  1 <= 3 < Py.len (current_stream cousin_tree) /\
  sibling_check cousin_tree 3 1 = Ok false /\
  sibling_check cousin_tree 2 1 = Ok true /\
  switch_stream cousin_tree 3 1 false
  = Ok (mkTree (root cousin_tree) [0; 1; 0; 0], 2) /\
  (exists at_depth,
      node_at_index (mkTree (root cousin_tree) [0; 1; 0; 0]) 3 = Ok at_depth /\
      text at_depth = Py.lit "F") /\
  path_valid short_cousin_tree /\
  1 <= 4 < Py.len (current_stream short_cousin_tree) /\
  sibling_check short_cousin_tree 2 1 = Ok true /\
  switch_stream short_cousin_tree 4 1 false
  = Ok (mkTree (root short_cousin_tree) [0; 1; 0], 2) /\
  (exists leaf,
      node_at_index (mkTree (root short_cousin_tree) [0; 1; 0]) 3 = Ok leaf /\
      children leaf = []).
Proof.
  split; [eexists; reflexivity|].
  split; [vm_compute; split; congruence|].
  split; [reflexivity|]. split; [reflexivity|]. split; [reflexivity|].
  split; [eexists; split; reflexivity|].
  split; [eexists; reflexivity|].
  split; [vm_compute; split; congruence|].
  split; [reflexivity|]. split; [reflexivity|].
  eexists; split; reflexivity.
Qed.

(** C3 (as stated) fails: on [two_roots_tree] the root has a child at index
    [path[0] + 1], no deeper level exists, and the call leaves the path at
    [[0]]. *)
Lemma switch_stream_root_level_counterexample :
  ~ (forall (self : Tree) (depth direction : Z) (leaf_explore : bool)
            (self' : Tree) (depth' step : Z),
        1 <= depth <= Py.len (current_stream self) ->
        (forall k, 2 <= k <= depth -> sibling_check self k direction = Ok false) ->
        sibling_check self 1 direction = Ok true ->
        Py.getitem (current_stream self) 0 = Ok step ->
        switch_stream self depth direction leaf_explore = Ok (self', depth') ->
        Py.getitem (current_stream self') 0 = Ok (step + direction)).
Proof.
  intros H.
  specialize (H two_roots_tree 1 1 false two_roots_tree 1 0).
  assert (Py.getitem (current_stream two_roots_tree) 0 = Ok (0 + 1)) as E;
    [|discriminate E].
  apply H.
  - vm_compute; split; congruence.
  - intros k Hk; lia.
  - reflexivity.
  - reflexivity.
  - reflexivity.
Qed.

(** C3 (amended).  The upward search of [switch_stream] examines the levels
    from [depth] down to 2 and never level 1.  If the deepest level with a
    valid sibling is [j >= 2], the path entry at position [j - 1] is replaced
    by the sibling index, followed by the extremal-branch leaf descent.  If
    no level deeper than 1 has a valid sibling, the call leaves the path
    unchanged and returns [depth], also when the root has a child at index
    [path[0] + direction]. *)
Theorem switch_stream_search_stops_above_root
        (self : Tree) (depth direction : Z) (leaf_explore : bool) :
  (forall j,
      2 <= j <= depth ->
      sibling_check self j direction = Ok true ->
      (forall k, j < k <= depth -> sibling_check self k direction = Ok false) ->
      exists parent step node depth',
        node_at_index self (j - 1) = Ok parent /\
        Py.getitem (current_stream self) (j - 1) = Ok step /\
        Py.getitem (children parent) (step + direction) = Ok node /\
        switch_stream self depth direction leaf_explore =
          Ok (mkTree (root self)
                     (firstn (Z.to_nat (j - 1)) (current_stream self)
                        ++ [step + direction]
                        ++ extremal_branch direction node),
              depth')) /\
  ((forall k, 2 <= k <= depth -> sibling_check self k direction = Ok false) ->
   sibling_check self 1 direction = Ok true ->
   switch_stream self depth direction leaf_explore = Ok (self, depth)).
Proof.
  split.
  - intros j Hj Hc Hno.
    destruct (@switch_stream_found self depth direction j leaf_explore Hj Hc Hno)
      as (parent & step & node & Hp & Hs & Hn & Hsw).
    exists parent, step, node. eexists. repeat split; eauto.
    rewrite Hsw, slice_to_nonneg by lia. reflexivity.
  - intros Hno _. unfold switch_stream.
    apply switch_loop_exhausted; [reflexivity|assumption].
Qed.

Lemma switch_stream_search_stops_above_root_witness :
  (forall k, 2 <= k <= 1 -> sibling_check two_roots_tree k 1 = Ok false) /\
  sibling_check two_roots_tree 1 1 = Ok true /\
  switch_stream two_roots_tree 1 1 false = Ok (two_roots_tree, 1).
Proof.
  assert (forall k, 2 <= k <= 1 -> sibling_check two_roots_tree k 1 = Ok false) as H
      by (intros k Hk; lia).
  split; [exact H|]. split; [reflexivity|].
  apply (proj2 (@switch_stream_search_stops_above_root two_roots_tree 1 1 false) H).
  reflexivity.
Defined.

(** ** Growing the tree *)

Lemma replace_nth_length {A} (k : nat) (x : A) (l : list A) :
  length (replace_nth k x l) = length l.
Proof.
  revert k; induction l as [|a l IH]; intros [|k]; simpl; auto.
Qed.

Lemma replace_nth_same {A} (k : nat) (x : A) (l : list A) :
  (k < length l)%nat -> nth_error (replace_nth k x l) k = Some x.
Proof.
  revert k; induction l as [|a l IH]; intros [|k] H; simpl in *; try lia; auto.
  apply IH; lia.
Qed.

Lemma replace_nth_other {A} (k j : nat) (x : A) (l : list A) :
  j <> k -> nth_error (replace_nth k x l) j = nth_error l j.
Proof.
  revert k j; induction l as [|a l IH]; intros [|k] [|j] H; simpl; auto; try lia.
Qed.

Lemma replace_nth_sum {A} (f : A -> nat) (k : nat) (x c : A) (l : list A) :
  nth_error l k = Some c ->
  (list_sum (map f (replace_nth k x l)) + f c = list_sum (map f l) + f x)%nat.
Proof.
  revert k; induction l as [|a l IH]; intros [|k] H; simpl in *; try discriminate.
  - injection H as ->. lia.
  - specialize (IH k H). lia.
Qed.

Lemma replace_nth_Forall_flat_map {A B} (g : A -> list B) (Q : B -> Prop)
      (k : nat) (x : A) (l : list A) :
  Forall Q (flat_map g l) -> Forall Q (g x) ->
  Forall Q (flat_map g (replace_nth k x l)).
Proof.
  revert k; induction l as [|a l IH]; intros [|k] H Hx; simpl in *; auto.
  - apply Forall_app in H as [_ H]. apply Forall_app; auto.
  - apply Forall_app in H as [Ha H]. apply Forall_app; auto.
Qed.

(** Python's [l[step]], when it succeeds, reads position [norm_index l step]. *)
Lemma getitem_norm {A} (l : list A) (step : Z) (c : A) :
  Py.getitem l step = Ok c ->
  nth_error l (norm_index l step) = Some c /\ (norm_index l step < length l)%nat.
Proof.
  unfold Py.getitem, norm_index; intros H.
  destruct ((_ <? 0) || _) eqn:E; [discriminate|].
  destruct (nth_error l _) as [x|] eqn:E'; [|discriminate].
  injection H as ->. split; [reflexivity|].
  apply nth_error_Some. congruence.
Qed.

Lemma getitem_replace_nth {A} (l : list A) (step : Z) (c x : A) :
  Py.getitem l step = Ok c ->
  Py.getitem (replace_nth (norm_index l step) x l) step = Ok x.
Proof.
  intros H. destruct (getitem_norm _ _ H) as [_ Hk].
  unfold Py.getitem in *. unfold Py.len in *.
  rewrite replace_nth_length.
  destruct ((_ <? 0) || _) eqn:E; [discriminate|].
  fold (norm_index l step). rewrite replace_nth_same by assumption. reflexivity.
Qed.

Section Modify.

Variable new_node : Node.

Let add (selected_node : Node) : Node := add_child selected_node new_node.

Lemma modify_at_defined (p : list Z) :
  forall n s, resolve n p = Ok s -> exists n', modify_at n p add = Ok n'.
Proof.
  induction p as [|step p IH]; intros n s H; simpl in *; [eauto|].
  destruct (Py.getitem (children n) step) as [c|e]; simpl in *; [|discriminate].
  destruct (IH c s H) as [c' Hc']. rewrite Hc'. simpl. eauto.
Qed.

Lemma modify_at_resolve (p : list Z) :
  forall n n' s,
    resolve n p = Ok s -> modify_at n p add = Ok n' ->
    resolve n' p = Ok (add s).
Proof.
  induction p as [|step p IH]; intros n n' s H Hm; simpl in *.
  - congruence.
  - destruct (Py.getitem (children n) step) as [c|e] eqn:Hg; simpl in *; [|discriminate].
    destruct (modify_at c p add) as [c'|e] eqn:Hc'; simpl in *; [|discriminate].
    injection Hm as <-. simpl.
    rewrite (getitem_replace_nth _ _ c' Hg). simpl. eauto.
Qed.

Lemma modify_at_count (p : list Z) :
  forall n n' s,
    resolve n p = Ok s -> modify_at n p add = Ok n' ->
    node_count n' = (node_count n + node_count new_node)%nat.
Proof.
  induction p as [|step p IH]; intros n n' s H Hm; simpl in *.
  - injection Hm as <-. destruct n as [tx ch ct i pid]. unfold add, add_child. simpl.
    rewrite map_app, list_sum_app. simpl. lia.
  - destruct (Py.getitem (children n) step) as [c|e] eqn:Hg; simpl in *; [|discriminate].
    destruct (modify_at c p add) as [c'|e] eqn:Hc'; simpl in *; [|discriminate].
    injection Hm as <-. destruct n as [tx ch ct i pid]. simpl in *.
    destruct (getitem_norm _ _ Hg) as [Hn _].
    pose proof (replace_nth_sum node_count _ c' _ Hn) as Hsum.
    rewrite (IH c c' s H Hc') in Hsum. lia.
Qed.

Lemma modify_at_Forall (Q : Node -> Prop) (p : list Z) :
  (forall tx ch ch' ct i pid,
      Q (mkNode tx ch ct i pid) -> Q (mkNode tx ch' ct i pid)) ->
  forall n n' s,
    resolve n p = Ok s -> modify_at n p add = Ok n' ->
    Forall Q (nodes n) -> Forall Q (nodes new_node) -> Forall Q (nodes n').
Proof.
  intros HQ.
  induction p as [|step p IH]; intros n n' s H Hm Hn Hnew; simpl in *.
  - injection Hm as <-. destruct n as [tx ch ct i pid]. unfold add, add_child. simpl in *.
    inversion Hn as [|? ? Hhd Htl]; subst. constructor; [eapply HQ; eassumption|].
    rewrite flat_map_app. apply Forall_app. split; [assumption|].
    simpl. rewrite app_nil_r. assumption.
  - destruct (Py.getitem (children n) step) as [c|e] eqn:Hg; simpl in *; [|discriminate].
    destruct (modify_at c p add) as [c'|e] eqn:Hc'; simpl in *; [|discriminate].
    injection Hm as <-. destruct n as [tx ch ct i pid]. simpl in *.
    inversion Hn as [|? ? Hhd Htl]; subst. constructor; [eapply HQ; eassumption|].
    apply replace_nth_Forall_flat_map; [assumption|].
    apply (IH c c' s H Hc'); [|assumption].
    destruct (getitem_norm _ _ Hg) as [Hnth _].
    apply nth_error_In in Hnth.
    rewrite Forall_forall in Htl |- *. intros x Hx. apply Htl.
    apply in_flat_map. eauto.
Qed.

Lemma modify_at_lookup (p : list Z) :
  forall n n' s,
    resolve n p = Ok s -> modify_at n p add = Ok n' ->
    forall q m, lookup n q = Some m ->
                exists m', lookup n' q = Some m' /\ same_record m m'.
Proof.
  induction p as [|step p IH]; intros n n' s H Hm q m Hq; simpl in *.
  - injection Hm as <-. destruct q as [|k q]; simpl in *.
    + injection Hq as <-. eexists; split; [reflexivity|]. repeat split.
    + destruct (nth_error (children n) k) as [c|] eqn:Hk; [|discriminate].
      rewrite nth_error_app1 by (apply nth_error_Some; congruence).
      rewrite Hk. exists m. split; [assumption|]. repeat split.
  - destruct (Py.getitem (children n) step) as [c|e] eqn:Hg; simpl in *; [|discriminate].
    destruct (modify_at c p add) as [c'|e] eqn:Hc'; simpl in *; [|discriminate].
    injection Hm as <-. destruct q as [|k q]; simpl in *.
    + injection Hq as <-. eexists; split; [reflexivity|]. repeat split.
    + destruct (getitem_norm _ _ Hg) as [Hnth Hlt].
      destruct (Nat.eq_dec k (norm_index (children n) step)) as [->|Hne].
      * rewrite replace_nth_same by assumption. rewrite Hnth in Hq.
        apply (IH c c' s H Hc' q m Hq).
      * rewrite replace_nth_other by assumption.
        destruct (nth_error (children n) k) as [d|]; [|discriminate].
        exists m. split; [assumption|]. repeat split.
Qed.

End Modify.

Lemma Tree_init_ids_below (now : timestamp) (node_id : Z) :
  ids_below (snd (Tree_init now node_id)) (root (fst (Tree_init now node_id))).
Proof.
  unfold ids_below; simpl. constructor; [simpl; lia|constructor].
Qed.

Lemma node_at_index_position (self : Tree) (index : Z) (n : Node) :
  node_at_index self index = Ok n ->
  resolve (root self) (firstn (Z.to_nat index) (current_stream self)) = Ok n.
Proof.
  intros H. destruct (Z.le_gt_cases index 0) as [Hi|Hi].
  - rewrite node_at_index_nonpos in H by assumption.
    replace (Z.to_nat index) with O by lia. exact H.
  - pose proof (node_at_index_length _ _ H) as Hl.
    rewrite <- node_at_index_resolve by (unfold Py.len in Hl; lia).
    rewrite Z2Nat.id by lia. exact H.
Qed.

(** A call of [grow] that returns keeps the counter above every id. *)
Lemma grow_ids_below (now : timestamp) (self self' : Tree) (text : Py.str)
      (index node_id node_id' : Z) :
  ids_below node_id (root self) ->
  grow now self text index node_id = Ok (self', node_id') ->
  ids_below node_id' (root self').
Proof.
  unfold grow, Node_init. intros Hids H.
  apply bind_Ok_inv in H as (sel & Hsel & H).
  apply bind_Ok_inv in H as (root' & Hmod & H).
  injection H as <- <-. simpl.
  apply node_at_index_position in Hsel.
  unfold ids_below in *.
  apply (modify_at_Forall (Q := fun m => id m < node_id + 1) _ _
                          (fun tx ch ch' ct i pid H => H) _ Hsel Hmod).
  - eapply Forall_impl; [|exact Hids]. simpl. intros; lia.
  - simpl. constructor; [simpl; lia|constructor].
Qed.

Lemma switch_loop_root (increment : Z) (leaf_explore : bool) (original_index : Z)
      (self self' : Tree) (index' : Z) :
  forall (m : nat) (index : Z),
    switch_loop m self index increment leaf_explore original_index
    = Ok (self', index') ->
    root self' = root self.
Proof.
  induction m as [|m IH]; intros index H; simpl in H.
  - injection H as <- _. reflexivity.
  - apply bind_Ok_inv in H as (parent & _ & H).
    apply bind_Ok_inv in H as (step & _ & H).
    destruct (_ && _).
    + apply bind_Ok_inv in H as (node & _ & H).
      destruct (descend _ _ _ _ _). injection H as <- _. reflexivity.
    + exact (IH _ H).
Qed.

(** The counter invariant holds of every tree the process builds. *)
Lemma created_ids_below (self : Tree) (node_id : Z) :
  created self node_id -> ids_below node_id (root self).
Proof.
  induction 1 as [now|self nid now text index self' nid' _ IH Hg
                 |self nid index inc le self' index' _ IH Hs].
  - apply Tree_init_ids_below.
  - exact (grow_ids_below _ _ _ _ IH Hg).
  - unfold switch_stream in Hs. rewrite (switch_loop_root _ _ _ _ _ _ Hs).
    exact IH.
Qed.

(** X21.  What [grow] does to the tree.  On a tree whose path resolves, and
    for [0 <= atDepth <= len(path)], [grow(text, atDepth)] returns normally
    and advances the counter [Node.node_id] by one; the node count grows by
    exactly 1; the new node carries the text, the clock reading, the old
    value of the counter as its id and the id of the node at [atDepth] as its
    parent id, and has no children; every node of the old tree is still at
    its position with its text, creation time, id and parent id; the current
    path becomes its first [atDepth] entries followed by the previous child
    count of the node at [atDepth], has length [atDepth + 1] and resolves to
    the new node. *)
Theorem grow_adds_one_node (now : timestamp) (self : Tree) (text : Py.str)
        (atDepth node_id : Z) :
  path_valid self ->
  0 <= atDepth <= Py.len (current_stream self) ->
  exists self' selected_node new_node,
    grow now self text atDepth node_id = Ok (self', node_id + 1) /\
    node_at_index self atDepth = Ok selected_node /\
    new_node = mkNode text [] now node_id (Some (id selected_node)) /\
    node_count (root self') = S (node_count (root self)) /\
    (forall q m, lookup (root self) q = Some m ->
                 exists m', lookup (root self') q = Some m' /\ same_record m m') /\
    current_stream self' =
      firstn (Z.to_nat atDepth) (current_stream self)
             ++ [Py.len (children selected_node)] /\
    Py.len (current_stream self') = atDepth + 1 /\
    node_at_index self' (atDepth + 1) = Ok new_node.
Proof.
  intros [last Hlast] Hd.
  destruct (node_at_index_prefix self (j := atDepth) Hlast) as [sel Hsel]; [lia|].
  set (new := mkNode text [] now node_id (Some (id sel))).
  set (p := firstn (Z.to_nat atDepth) (current_stream self)).
  assert (resolve (root self) p = Ok sel) as Hres.
  { subst p. rewrite <- node_at_index_resolve by (unfold Py.len in Hd; lia).
    rewrite Z2Nat.id by lia. exact Hsel. }
  destruct (modify_at_defined new p (root self) Hres) as [root' Hmod].
  exists (mkTree root' (p ++ [Py.len (children sel)])), sel, new.
  assert (length p = Z.to_nat atDepth) as Hlen.
  { subst p. rewrite length_firstn. unfold Py.len in Hd. lia. }
  repeat split.
  - unfold grow. rewrite Hsel. simpl bind. cbv zeta.
    unfold Node_init. fold new. fold p. rewrite Hmod. simpl.
    rewrite slice_to_nonneg by lia. reflexivity.
  - exact Hsel.
  - simpl. rewrite (modify_at_count new p (root self) Hres Hmod). simpl. lia.
  - intros q m Hq. simpl. apply (modify_at_lookup new p (root self) Hres Hmod q Hq).
  - simpl. unfold Py.len. rewrite length_app, Hlen. simpl. lia.
  - replace (atDepth + 1) with (Z.of_nat (length (p ++ [Py.len (children sel)]))).
    2:{ rewrite length_app, Hlen. simpl. lia. }
    rewrite node_at_index_resolve by (simpl; lia).
    simpl root. simpl current_stream. rewrite firstn_all, resolve_app.
    rewrite (modify_at_resolve new p (root self) Hres Hmod). simpl.
    rewrite getitem_len_app. reflexivity.
Qed.

Lemma grow_adds_one_node_witness :
  exists self' selected_node new_node,
    grow 20 fresh_tree (Py.lit "hello") 0 1 = Ok (self', 1 + 1) /\
    node_at_index fresh_tree 0 = Ok selected_node /\
    new_node = mkNode (Py.lit "hello") [] 20 1 (Some (id selected_node)) /\
    node_count (root self') = S (node_count (root fresh_tree)) /\
    (forall q m, lookup (root fresh_tree) q = Some m ->
                 exists m', lookup (root self') q = Some m' /\ same_record m m') /\
    current_stream self' =
      firstn (Z.to_nat 0) (current_stream fresh_tree)
             ++ [Py.len (children selected_node)] /\
    Py.len (current_stream self') = 0 + 1 /\
    node_at_index self' (0 + 1) = Ok new_node.
Proof.
  apply (@grow_adds_one_node 20 fresh_tree (Py.lit "hello") 0 1).
  - eexists; reflexivity.
  - vm_compute; split; congruence.
Defined.

(** ** The tabular export *)

Lemma collect_node_data_spec (node : Node) :
  forall (parent_text : Py.str) (data : list Row) (depth : Z),
    collect_node_data node parent_text data depth =
      data ++ preorder_rows node parent_text depth.
Proof.
  induction node as [tx ch ct i pid IH] using Node_ind.
  intros parent_text data depth. simpl.
  set (row := mkRow tx parent_text ct depth i pid).
  change (data ++ row :: flat_map (fun child => preorder_rows child tx (depth + 1)) ch)
    with (data ++ [row] ++ flat_map (fun child => preorder_rows child tx (depth + 1)) ch).
  rewrite app_assoc. generalize (data ++ [row]) as acc.
  induction IH as [|c ch Hc _ IHch]; intros acc; simpl.
  - rewrite app_nil_r. reflexivity.
  - rewrite Hc, IHch, app_assoc. reflexivity.
Qed.

Lemma preorder_rows_ids (node : Node) :
  forall (parent_text : Py.str) (depth : Z),
    map row_node_id (preorder_rows node parent_text depth) = map id (nodes node).
Proof.
  induction node as [tx ch ct i pid IH] using Node_ind.
  intros parent_text depth. simpl. f_equal.
  generalize (depth + 1) as d.
  induction IH as [|c ch Hc _ IHch]; intros d; simpl; [reflexivity|].
  rewrite !map_app, Hc, IHch. reflexivity.
Qed.

Lemma nodes_length (node : Node) : length (nodes node) = node_count node.
Proof.
  induction node as [tx ch ct i pid IH] using Node_ind. simpl. f_equal.
  induction IH as [|c ch Hc _ IHch]; simpl; [reflexivity|].
  rewrite length_app, Hc, IHch. reflexivity.
Qed.

(** C5 (as stated) fails: after [grow("hello", 0)] on a fresh tree the export
    has two records, not one; the first is the record of the root. *)
Lemma export_root_excluded_counterexample :
  grow 20 fresh_tree (Py.lit "hello") 0 1 = Ok (hello_tree, 2) /\
  export_tree_to_csv hello_tree =
    [mkRow (Py.lit "") (Py.lit "") 10 0 0 None;
     mkRow (Py.lit "hello") (Py.lit "") 20 1 1 (Some 0)] /\
  length (export_tree_to_csv hello_tree) <> 1%nat /\
  length (export_tree_to_csv hello_tree) <> (node_count (root hello_tree) - 1)%nat.
Proof.
  repeat split; try reflexivity; vm_compute; discriminate.
Qed.

(** C5 (amended).  The tabular export emits, by a pre-order traversal from
    the root, exactly one record (text, parent text, creation time, depth,
    id, parent id) per node, the root included: the first record is the
    root's, with parent text [""] and depth 0, and the ids of the records are
    the ids of the nodes in pre-order.  For a fresh empty tree, after
    [grow("hello", 0)] the export yields exactly two records: the root's, and
    the record of "hello" with parent text [""] and depth 1. *)
Theorem export_tree_to_csv_spec (self : Tree) :
  export_tree_to_csv self = preorder_rows (root self) (Py.lit "") 0 /\
  length (export_tree_to_csv self) = node_count (root self) /\
  map row_node_id (export_tree_to_csv self) = map id (nodes (root self)) /\
  hd_error (export_tree_to_csv self) =
    Some (mkRow (text (root self)) (Py.lit "") (creation_time (root self)) 0
                (id (root self)) (parent_id (root self))) /\
  (forall now0 now1 : timestamp,
      exists grown,
        grow now1 (fst (Tree_init now0 0)) (Py.lit "hello") 0 1 = Ok (grown, 2) /\
        export_tree_to_csv grown =
          [mkRow (Py.lit "") (Py.lit "") now0 0 0 None;
           mkRow (Py.lit "hello") (Py.lit "") now1 1 1 (Some 0)]).
Proof.
  assert (export_tree_to_csv self = preorder_rows (root self) (Py.lit "") 0) as E.
  { unfold export_tree_to_csv. rewrite collect_node_data_spec. reflexivity. }
  split; [exact E|]. rewrite E.
  split; [|split; [|split]].
  - rewrite <- nodes_length, <- (length_map id).
    rewrite <- (preorder_rows_ids (root self) (Py.lit "") 0).
    apply eq_sym, length_map.
  - apply preorder_rows_ids.
  - destruct (root self); reflexivity.
  - intros now0 now1. eexists. split; reflexivity.
Qed.

(** ** utils.text_wrap returns *)

Lemma wrap_long_total (line_length : Z) :
  1 <= line_length ->
  forall (fuel : nat) (lines : list Py.str) (line word : Py.str),
    (length word <= fuel)%nat ->
    exists r, wrap_long fuel line_length lines line word = Some r.
Proof.
  intros Hw. induction fuel as [|fuel IH]; intros lines line word Hf.
  - destruct word; [|simpl in Hf; lia].
    simpl. destruct (Py.len [] >? line_length) eqn:E; [|eauto].
    apply Z.gtb_lt in E. unfold Py.len in E. simpl in E. lia.
  - simpl. destruct (Py.len word >? line_length) eqn:E; [|eauto].
    apply Z.gtb_lt in E.
    destruct (truthy line); apply IH;
      pose proof (len_slice_from word line_length) as Hl;
      rewrite bound_spec in Hl;
      destruct (line_length <? 0) eqn:E'; unfold Py.len in *; lia.
Qed.

Lemma wrap_words_total (line_length : Z) :
  1 <= line_length ->
  forall (words lines : list Py.str) (line : Py.str),
    exists r, wrap_words line_length words lines line = Some r.
Proof.
  intros Hw. induction words as [|word words IH]; intros lines line; simpl.
  - eauto.
  - destruct (@wrap_long_total line_length Hw (length word) lines line word (le_n _))
      as [[[lines' line'] word'] ->].
    destruct (_ >? line_length); apply IH.
Qed.

(** With a line length of at least 1, as in the editor (35), [text_wrap]
    returns. *)
Lemma text_wrap_total (text : Py.str) (line_length : Z) :
  1 <= line_length -> exists lines, text_wrap text line_length = Some lines.
Proof.
  intros Hw. unfold text_wrap.
  destruct (@wrap_words_total line_length Hw (split_space text) [] []) as [[lines line] ->].
  eauto.
Qed.

(** ** The editor *)

(** With a resolving path and [index] within it, [switch_stream] returns. *)
Lemma switch_loop_total (self : Tree) (increment : Z) (leaf_explore : bool)
      (original_index : Z) :
  path_valid self ->
  forall (m : nat) (index : Z),
    m = Z.to_nat (index - 1) ->
    index <= Py.len (current_stream self) ->
    exists r, switch_loop m self index increment leaf_explore original_index = Ok r.
Proof.
  intros Hv. induction m as [|m IH]; intros index Hm Hi; simpl; [eauto|].
  destruct (@sibling_check_defined self index increment Hv) as [b Hb]; [lia|].
  destruct b.
  - destruct (sibling_check_true _ _ _ Hb) as (parent & step & node & Hp & Hs & Hr & Hn).
    rewrite Hp; simpl. rewrite Hs; simpl.
    replace (step + increment >=? 0) with true by (symmetry; apply Z.geb_le; lia).
    replace (step + increment <? Py.len (children parent)) with true
      by (symmetry; apply Z.ltb_lt; lia).
    simpl. rewrite Hn; simpl.
    destruct (descend _ _ _ _ _). eauto.
  - unfold sibling_check in Hb.
    destruct (node_at_index self (index - 1)) as [parent|e]; [|discriminate].
    simpl in Hb |- *.
    destruct (Py.getitem (current_stream self) (index - 1)) as [step|e]; [|discriminate].
    simpl in Hb |- *. injection Hb as Hb. rewrite Hb.
    apply IH; lia.
Qed.

Lemma switch_stream_total (self : Tree) (index increment : Z) (leaf_explore : bool) :
  path_valid self ->
  index <= Py.len (current_stream self) ->
  exists r, switch_stream self index increment leaf_explore = Ok r.
Proof.
  intros Hv Hi. unfold switch_stream.
  apply switch_loop_total; [assumption|reflexivity|assumption].
Qed.

Section EditorFacts.

Variable autoloop : bool.

Lemma initial_timer_pos : 1 <= initial_timer autoloop.
Proof. unfold initial_timer; destruct autoloop; lia. Qed.

Lemma with_current_timer_id (e : Editor) :
  with_current_timer (current_timer e) e = e.
Proof. destruct e; reflexivity. Qed.

Lemma set_reading_mode_returns (e : Editor) :
  editor_ok e ->
  exists e', set_reading_mode autoloop e = Ok e' /\ reading_mode e' = true.
Proof.
  intros [Hv Hs]. unfold set_reading_mode. cbv zeta. simpl.
  destruct (selected_index e + 1 >? Py.len (current_stream (tree e))) eqn:E.
  - destruct (@switch_stream_total (tree e) (selected_index e + 1 - 1) 1 true Hv)
      as [r Hr]; [lia|].
    rewrite Hr. simpl. eexists; split; reflexivity.
  - simpl. eexists; split; reflexivity.
Qed.

Lemma next_line_countdown (e : Editor) :
  reading_mode e = false ->
  current_timer e <> 1 ->
  next_line autoloop e = Ok (with_current_timer (current_timer e - 1) e).
Proof.
  intros Hr Ht. unfold next_line. rewrite Hr. simpl.
  destruct (current_timer e - 1 =? 0) eqn:E; [apply Z.eqb_eq in E; lia|reflexivity].
Qed.

Lemma next_line_expiry (e : Editor) :
  reading_mode e = false ->
  current_timer e = 1 ->
  next_line autoloop e = set_reading_mode autoloop (with_current_timer 0 e).
Proof.
  intros Hr Ht. unfold next_line. rewrite Hr, Ht. reflexivity.
Qed.

Lemma timer_countdown (nows : list timestamp) :
  forall e,
    reading_mode e = false ->
    Z.of_nat (length nows) < current_timer e ->
    dispatch_all autoloop (timer_events nows) e =
      Ok (with_current_timer (current_timer e - Z.of_nat (length nows)) e).
Proof.
  induction nows as [|now nows IH]; intros e Hr Ht.
  - simpl. rewrite Z.sub_0_r, with_current_timer_id. reflexivity.
  - unfold dispatch_all in *. simpl foldM. simpl fst. simpl snd.
    unfold handle_keypress at 1.
    simpl length in Ht.
    rewrite (next_line_countdown e Hr) by lia. simpl bind.
    rewrite IH; [|exact Hr|simpl; lia].
    f_equal. destruct e; unfold with_current_timer; simpl. f_equal. lia.
Qed.

(** X22.  Autoscroll on the path.  From a writing-mode state whose
    [current_timer] is the configured initial value N, whose path resolves
    and whose selection is on the path or at its start, N consecutive
    timer-expiry events and no keypress enter reading mode exactly once, at
    the N-th event: after each of the first N-1 events the state is the
    original one with [current_timer] decremented once per event and
    [reading_mode] still false, and the N-th event runs [set_reading_mode],
    which returns with [reading_mode] true. *)
Theorem autoscroll_after_initial_timer (e : Editor) (nows : list timestamp) :
  reading_mode e = false ->
  current_timer e = initial_timer autoloop ->
  editor_ok e ->
  Z.of_nat (length nows) = initial_timer autoloop ->
  (forall j, (j < length nows)%nat ->
             exists e_j,
               dispatch_all autoloop (timer_events (firstn j nows)) e = Ok e_j /\
               e_j = with_current_timer (initial_timer autoloop - Z.of_nat j) e /\
               reading_mode e_j = false) /\
  (exists e',
      dispatch_all autoloop (timer_events nows) e = Ok e' /\
      set_reading_mode autoloop (with_current_timer 0 e) = Ok e' /\
      reading_mode e' = true).
Proof.
  intros Hr Ht Hok Hn. split.
  - intros j Hj. eexists. split; [|split; [reflexivity|]].
    + rewrite timer_countdown; [|exact Hr|rewrite length_firstn; lia].
      rewrite length_firstn, Ht. do 2 f_equal. lia.
    + simpl. exact Hr.
  - pose proof initial_timer_pos as Hpos.
    destruct (@set_reading_mode_returns (with_current_timer 0 e)) as (e' & He' & Hm).
    { destruct Hok as [Hv Hs]. split; simpl; assumption. }
    exists e'. split; [|split; assumption].
    destruct (exists_last (l := nows)) as (front & now & ->).
    { intros ->. simpl in Hn. lia. }
    rewrite length_app in Hn. simpl in Hn.
    unfold timer_events, dispatch_all. rewrite map_app, foldM_app.
    fold (timer_events front).
    fold (dispatch_all autoloop (timer_events front) e).
    rewrite timer_countdown; [|exact Hr|lia].
    simpl. rewrite next_line_expiry; [|exact Hr|simpl; lia].
    replace (with_current_timer 0 (with_current_timer _ e))
      with (with_current_timer 0 e) by (destruct e; reflexivity).
    rewrite He'. reflexivity.
Qed.

End EditorFacts.

Lemma autoscroll_after_initial_timer_witness :
  (forall j, (j < length (repeat 0 20))%nat ->
             exists e_j,
               dispatch_all true (timer_events (firstn j (repeat 0 20)))
                            (Editor_init true 10) = Ok e_j /\
               e_j = with_current_timer (initial_timer true - Z.of_nat j)
                                        (Editor_init true 10) /\
               reading_mode e_j = false) /\
  (exists e',
      dispatch_all true (timer_events (repeat 0 20)) (Editor_init true 10) = Ok e' /\
      set_reading_mode true (with_current_timer 0 (Editor_init true 10)) = Ok e' /\
      reading_mode e' = true).
Proof.
  apply (@autoscroll_after_initial_timer true (Editor_init true 10) (repeat 0 20)).
  - reflexivity.
  - reflexivity.
  - split; [eexists; reflexivity|vm_compute; split; congruence].
  - reflexivity.
Defined.

(** ** The cursor within the text being written *)

Ltac ok_inv :=
  repeat match goal with
    | H : bind _ _ = Ok _ |- _ =>
        let x := fresh "r" in
        let Hx := fresh "Hr" in
        apply bind_Ok_inv in H as (x & Hx & H)
    | H : Ok _ = Ok _ |- _ => injection H as H; try subst
    | H : Raise _ = Ok _ |- _ => discriminate H
    | H : (if ?c then _ else _) = Ok _ |- _ => destruct c eqn:?
    | H : match ?c with _ => _ end = Ok _ |- _ => destruct c eqn:?
    end.

Section CursorFacts.

Variable autoloop : bool.

Lemma set_reading_mode_cleared (e e' : Editor) :
  set_reading_mode autoloop e = Ok e' -> cursor_cleared e'.
Proof.
  unfold set_reading_mode. cbv zeta. intros H. ok_inv; split; reflexivity.
Qed.

Lemma submit_para_cleared (now : timestamp) (e e' : Editor) :
  submit_para autoloop now e = Ok e' -> cursor_cleared e'.
Proof.
  unfold submit_para. cbv zeta. intros H. ok_inv; split; reflexivity.
Qed.

Lemma prev_line_kept (e e' : Editor) :
  prev_line e = Ok e' -> cursor_kept e e'.
Proof.
  unfold prev_line. cbv zeta. intros H. ok_inv; split; reflexivity.
Qed.

Lemma next_para_kept (e : Editor) (keep : bool) :
  cursor_kept e (next_para e keep).
Proof.
  unfold next_para. cbv zeta.
  destruct (Py.is_int _ _); [destruct keep|]; split; reflexivity.
Qed.

Lemma prev_para_kept (e : Editor) : cursor_kept e (prev_para e).
Proof.
  unfold prev_para. cbv zeta. destruct (_ >? 1); split; reflexivity.
Qed.

Lemma next_line_cursor (e e' : Editor) :
  next_line autoloop e = Ok e' -> cursor_kept e e' \/ cursor_cleared e'.
Proof.
  unfold next_line. cbv zeta. intros H.
  destruct (reading_mode e).
  - ok_inv; left; [apply (next_para_kept (with_line_in_para _ e))|split; reflexivity].
  - destruct (_ =? 0).
    + right. eapply set_reading_mode_cleared; eassumption.
    + ok_inv. left. split; reflexivity.
Qed.

Lemma prev_lines_kept (l : list Z) :
  forall e e', foldM (fun self _ => prev_line self) l e = Ok e' -> cursor_kept e e'.
Proof.
  induction l as [|x l IH]; intros e e' H; simpl in H.
  - ok_inv. split; reflexivity.
  - ok_inv. apply prev_line_kept in Hr. apply IH in H.
    destruct Hr, H. split; congruence.
Qed.

Lemma cursor_kept_in_text (e e' : Editor) :
  cursor_kept e e' -> cursor_in_text e -> cursor_in_text e'.
Proof.
  unfold cursor_kept, cursor_in_text. intros [-> ->]. auto.
Qed.

Lemma cursor_cleared_in_text (e' : Editor) :
  cursor_cleared e' -> cursor_in_text e'.
Proof.
  unfold cursor_cleared, cursor_in_text, Py.len. intros [-> ->]. simpl. lia.
Qed.

Lemma backspace_in_text (s : Py.str) (c : Z) :
  truthy s = true -> 0 <= c <= Py.len s ->
  0 <= Z.max 0 (c - 1)
  <= Py.len (Py.slice_to s (c - 1) ++ Py.slice_from s c).
Proof.
  intros Hs Hc.
  assert (1 <= Py.len s) by (destruct s; [discriminate|unfold Py.len; simpl; lia]).
  rewrite len_app, len_slice_to, len_slice_from, !bound_spec.
  destruct (c - 1 <? 0) eqn:E1; destruct (c <? 0) eqn:E2; lia.
Qed.

Lemma insert_in_text (s : Py.str) (key : ascii) (c : Z) :
  0 <= c <= Py.len s ->
  0 <= c + 1 <= Py.len (Py.slice_to s c ++ [key] ++ Py.slice_from s c).
Proof.
  intros Hc.
  rewrite !len_app, len_slice_to, len_slice_from, !bound_spec.
  change (Py.len [key]) with 1.
  destruct (c <? 0) eqn:E2; lia.
Qed.

Lemma handle_keypress_cursor (now : timestamp) (key : Keystroke) (e e' : Editor) :
  cursor_in_text e ->
  handle_keypress autoloop now key e = Ok e' ->
  cursor_in_text e'.
Proof.
  intros Hc H.
  assert (forall e1, cursor_kept e e1 -> cursor_in_text e1) as Hkept
      by (intros e1 Hk; exact (cursor_kept_in_text Hk Hc)).
  destruct key as [name|key|]; simpl in H.
  - destruct name.
    + (* KEY_ENTER *)
      destruct (reading_mode e); [ok_inv; exact Hc|].
      destruct (truthy (current_text e)).
      { eapply cursor_cleared_in_text, submit_para_cleared; eassumption. }
      destruct (_ <? _); [|ok_inv; exact Hc].
      eapply cursor_cleared_in_text, set_reading_mode_cleared; eassumption.
    + (* KEY_TAB *)
      destruct (reading_mode e); [ok_inv; apply Hkept, next_para_kept|].
      destruct (current_stream (tree e)); [ok_inv; exact Hc|].
      eapply cursor_cleared_in_text, set_reading_mode_cleared; eassumption.
    + (* KEY_BACKSPACE *)
      destruct (truthy (current_text e)) eqn:Ht; simpl in H; [|ok_inv; exact Hc].
      destruct (reading_mode e); simpl in H; ok_inv; [exact Hc|].
      unfold cursor_in_text; simpl. apply backspace_in_text; assumption.
    + (* KEY_RIGHT *)
      destruct (reading_mode e); ok_inv; [exact Hc|].
      unfold cursor_in_text in *; simpl. lia.
    + (* KEY_LEFT *)
      destruct (reading_mode e); ok_inv; [exact Hc|].
      unfold cursor_in_text in *; simpl. lia.
    + (* KEY_DOWN *)
      destruct (next_line_cursor _ H) as [Hk|Hk];
        [exact (Hkept _ Hk)|exact (cursor_cleared_in_text Hk)].
    + (* KEY_UP *)
      exact (Hkept _ (prev_line_kept _ H)).
    + (* KEY_ESCAPE *)
      destruct (reading_mode e); simpl in H; [ok_inv; exact Hc|].
      apply bind_Ok_inv in H as (e1 & H1 & H).
      apply bind_Ok_inv in H as (lines & _ & H).
      apply prev_lines_kept in H.
      apply (cursor_kept_in_text H).
      destruct (truthy (current_text e)).
      * eapply cursor_cleared_in_text, submit_para_cleared; eassumption.
      * ok_inv. exact Hc.
    + (* KEY_OTHER *)
      ok_inv. exact Hc.
  - (* a character *)
    apply bind_Ok_inv in H as (e1 & H1 & H).
    assert (cursor_kept e e1 /\ reading_mode e1 = reading_mode e) as [Hk Hm].
    { clear H. destruct (reading_mode e) eqn:Hrm;
        [|ok_inv; repeat split; congruence].
      destruct (_ || _).
      { ok_inv. split; [apply next_para_kept|].
        unfold next_para. cbv zeta. destruct (Py.is_int _ _); simpl; assumption. }
      destruct (_ || _).
      { ok_inv. split; [apply prev_para_kept|].
        unfold prev_para. cbv zeta. destruct (_ >? 1); simpl; assumption. }
      destruct (_ || _); [ok_inv; repeat split; simpl; congruence|].
      destruct (_ || _); [ok_inv; repeat split; simpl; congruence|].
      destruct (Ascii.eqb _ _); ok_inv; repeat split; simpl; congruence. }
    pose proof (cursor_kept_in_text Hk Hc) as Hc1. clear H1.
    destruct (reading_mode e1); simpl in H; ok_inv; [exact Hc1|].
    unfold cursor_in_text in *; simpl. apply insert_in_text. exact Hc1.
  - (* timer event *)
    destruct (next_line_cursor _ H) as [Hk|Hk];
      [exact (Hkept _ Hk)|exact (cursor_cleared_in_text Hk)].
Qed.

(** C10.  In every editor state reachable from the initial state by key and
    timer events, [0 <= cursor_position <= len(current_text)]: the bounds
    hold initially and every event handler that returns preserves them.  In
    writing mode the insertion of a character returns and advances the
    cursor by exactly one together with the length of the text. *)
Theorem cursor_position_within_text :
  (forall now, cursor_in_text (Editor_init autoloop now)) /\
  (forall now key e e',
      cursor_in_text e ->
      handle_keypress autoloop now key e = Ok e' ->
      cursor_in_text e') /\
  (forall e, reachable autoloop e -> cursor_in_text e) /\
  (forall now key e,
      reading_mode e = false ->
      cursor_in_text e ->
      exists e',
        handle_keypress autoloop now (Char key) e = Ok e' /\
        cursor_position e' = cursor_position e + 1 /\
        Py.len (current_text e') = Py.len (current_text e) + 1).
Proof.
  assert (forall now, cursor_in_text (Editor_init autoloop now)) as Hinit.
  { intros now. unfold cursor_in_text, Py.len. simpl. lia. }
  split; [exact Hinit|]. split; [exact handle_keypress_cursor|]. split.
  - intros e Hr. induction Hr as [now|e now key e' _ IH Hstep].
    + apply Hinit.
    + exact (handle_keypress_cursor _ _ IH Hstep).
  - intros now key e Hm Hc. simpl. rewrite Hm. simpl. rewrite Hm. simpl.
    eexists. split; [reflexivity|]. split; [reflexivity|]. simpl.
    unfold cursor_in_text in Hc.
    change (key :: Py.slice_from (current_text e) (cursor_position e))
      with ([key] ++ Py.slice_from (current_text e) (cursor_position e)).
    rewrite !len_app, len_slice_to, len_slice_from, !bound_spec.
    change (Py.len [key]) with 1.
    destruct (cursor_position e <? 0) eqn:E; lia.
Qed.

End CursorFacts.

Lemma cursor_position_within_text_witness :
  reachable true typed_a_state /\ cursor_in_text typed_a_state.
Proof.
  assert (reachable true typed_a_state) as H.
  { apply (@reachable_step true (Editor_init true 10) 11 (Char "a"%char)).
    - apply reachable_init.
    - reflexivity. }
  split; [exact H|].
  apply (proj1 (proj2 (proj2 (cursor_position_within_text true))) typed_a_state H).
Defined.

(** ** Runs that leave the specification *)

(** C1 (the code raises).  In the initial state (writing mode, empty path,
    [selected_index = 0]) the Up key and the Escape key raise [IndexError]:
    [prev_line] reads [get_stream()[selected_index - 1]] on an empty stream.
    So does the timer alone: after [initial_timer] expiry events the editor
    is in reading mode on an empty path, and the next expiry event raises
    [IndexError] in [lines_in_current_para]. *)
Theorem initial_state_dispatch_raises (autoloop : bool) (now0 now : timestamp) :
  reachable autoloop (Editor_init autoloop now0) /\
  handle_keypress autoloop now (Sequence KEY_UP) (Editor_init autoloop now0)
    = Raise IndexError /\
  handle_keypress autoloop now (Sequence KEY_ESCAPE) (Editor_init autoloop now0)
    = Raise IndexError /\
  (exists e,
      dispatch_all autoloop
                   (timer_events (repeat now (Z.to_nat (initial_timer autoloop))))
                   (Editor_init autoloop now0) = Ok e /\
      reachable autoloop e /\
      reading_mode e = true /\
      current_stream (tree e) = [] /\
      handle_keypress autoloop now NoKey e = Raise IndexError).
Proof.
  split; [apply reachable_init|].
  split; [reflexivity|]. split; [reflexivity|].
  assert (forall events e1 e2,
             reachable autoloop e1 ->
             dispatch_all autoloop events e1 = Ok e2 ->
             reachable autoloop e2) as Hrun.
  { induction events as [|[t k] events IH]; intros e1 e2 Hr H; simpl in H.
    - injection H as <-. exact Hr.
    - apply bind_Ok_inv in H as (e & He & H).
      apply (IH e e2); [|exact H].
      apply (reachable_step t k Hr He). }
  assert (exists e,
             dispatch_all autoloop
                          (timer_events (repeat now (Z.to_nat (initial_timer autoloop))))
                          (Editor_init autoloop now0) = Ok e /\
             reading_mode e = true /\
             current_stream (tree e) = [] /\
             handle_keypress autoloop now NoKey e = Raise IndexError)
    as (e & Hrun_e & Hm & Hs & Hraise).
  { exists (with_selected_index 1
              (with_reading_mode true (Editor_init autoloop now0))).
    destruct autoloop; repeat split; vm_compute; reflexivity. }
  exists e. repeat split; try assumption.
  apply (Hrun _ _ _ (reachable_init autoloop now0) Hrun_e).
Qed.

(** Every state a run ends in is reachable. *)
Lemma dispatch_all_reachable (autoloop : bool) (now0 : timestamp)
      (events : list (timestamp * Keystroke)) :
  forall e1 e2,
    reachable autoloop e1 ->
    dispatch_all autoloop events e1 = Ok e2 ->
    reachable autoloop e2.
Proof.
  induction events as [|[t k] events IH]; intros e1 e2 Hr H; simpl in H.
  - injection H as <-. exact Hr.
  - apply bind_Ok_inv in H as (e & He & H).
    apply (IH e e2); [|exact H].
    apply (reachable_step t k Hr He).
Qed.

(** C7 (the code raises).  A writing-mode state whose timer is at its initial
    value N, reached from the initial state: N timer events (reading mode,
    the selection at 1 on the empty path), then the key j (the selection at
    2), then Enter (writing mode again, the timer still at N).  From there
    the first N - 1 timer events count the timer down to 1 with
    [reading_mode] false, and the N-th, instead of entering reading mode,
    raises [IndexError]: [set_reading_mode] calls
    [switch_stream(2, 1, True)], whose [node_at_index(1)] reads the first
    entry of the empty path.  The editor is off its path here for the reason
    it is in C1: the timer enters reading mode on the empty path of a tree
    without fragments. *)
Theorem autoscroll_expiry_raises_off_path (autoloop : bool) (now0 now : timestamp) :
  let N := Z.to_nat (initial_timer autoloop) in
  let e := with_selected_index 2 (Editor_init autoloop now0) in
  dispatch_all autoloop
               (timer_events (repeat now N)
                  ++ [(now, Char "j"%char); (now, Sequence KEY_ENTER)])
               (Editor_init autoloop now0) = Ok e /\
  reachable autoloop e /\
  reading_mode e = false /\
  current_timer e = initial_timer autoloop /\
  dispatch_all autoloop (timer_events (repeat now (N - 1))) e
  = Ok (with_current_timer 1 e) /\
  reading_mode (with_current_timer 1 e) = false /\
  handle_keypress autoloop now NoKey (with_current_timer 1 e) = Raise IndexError /\
  dispatch_all autoloop (timer_events (repeat now N)) e = Raise IndexError.
Proof.
  cbv zeta.
  assert (dispatch_all autoloop
            (timer_events (repeat now (Z.to_nat (initial_timer autoloop)))
               ++ [(now, Char "j"%char); (now, Sequence KEY_ENTER)])
            (Editor_init autoloop now0)
          = Ok (with_selected_index 2 (Editor_init autoloop now0))) as Hrun.
  { destruct autoloop; vm_compute; reflexivity. }
  split; [exact Hrun|].
  split.
  { apply (dispatch_all_reachable now0 _ (reachable_init autoloop now0) Hrun). }
  split; [reflexivity|]. split; [reflexivity|].
  split; [destruct autoloop; vm_compute; reflexivity|].
  split; [reflexivity|].
  split; destruct autoloop; vm_compute; reflexivity.
Qed.

(** C8 (the code differs).  Escape in writing mode with a pending text of
    two display lines: the text is submitted, and "previous line" is then
    issued [1 + len(text_wrap(current_text))] times with [current_text]
    already cleared by the submission, that is twice and not three times;
    the selection is left on line 1 of the fragment, not at its start. *)
Theorem escape_unwinds_twice (autoloop : bool) (now0 now : timestamp) :
  exists e e1 e2 e',
    dispatch_all autoloop (typed now two_line_text) (Editor_init autoloop now0)
      = Ok e /\
    reading_mode e = false /\
    current_text e = Py.lit two_line_text /\
    option_map (@length Py.str) (text_wrap (current_text e) (column_width e))
      = Some 2%nat /\
    submit_para autoloop now e = Ok e1 /\
    prev_line e1 = Ok e2 /\
    prev_line e2 = Ok e' /\
    handle_keypress autoloop now (Sequence KEY_ESCAPE) e = Ok e' /\
    reading_mode e' = true /\
    line_in_para e' = 1.
Proof.
  set (e := with_cursor_position 39
              (with_current_text (Py.lit two_line_text)
                                 (Editor_init autoloop now0))).
  set (e1 := with_selected_index 1
               (with_tree
                  (mkTree
                     (mkNode (Py.lit "")
                             [mkNode (Py.lit two_line_text) [] now 1 (Some 0)]
                             now0 0 None)
                     [0])
                  2 (Editor_init autoloop now0))).
  exists e, e1, (with_line_in_para 2 (with_reading_mode true e1)),
    (with_line_in_para 1 (with_reading_mode true e1)).
  subst e e1. destruct autoloop; repeat split; vm_compute; reflexivity.
Qed.

(** C9 (the code differs).  Backspace in writing mode with the text "ab" and
    the cursor at 0: the slice [current_text[:cursor_position - 1]] is
    [current_text[:-1]], so the text becomes "aab" instead of staying "ab";
    the cursor stays at 0. *)
Theorem backspace_at_cursor_zero (autoloop : bool) (now0 now : timestamp) :
  exists e e',
    dispatch_all autoloop
                 (typed now "ab"
                    ++ [(now, Sequence KEY_LEFT); (now, Sequence KEY_LEFT)])
                 (Editor_init autoloop now0) = Ok e /\
    reading_mode e = false /\
    current_text e = Py.lit "ab" /\
    cursor_position e = 0 /\
    handle_keypress autoloop now (Sequence KEY_BACKSPACE) e = Ok e' /\
    current_text e' = Py.lit "aab" /\
    cursor_position e' = 0.
Proof.
  exists (with_cursor_position 0
            (with_current_text (Py.lit "ab") (Editor_init autoloop now0))),
    (with_cursor_position 0
       (with_current_text (Py.lit "aab") (Editor_init autoloop now0))).
  destruct autoloop; repeat split; reflexivity.
Qed.

(** * Further properties of the code *)

(** ** The navigator keeps the path on the tree *)

Lemma nth_error_last {A} (c0 : A) (rest : list A) :
  nth_error (c0 :: rest) (length rest) = Some (last rest c0).
Proof.
  revert c0; induction rest as [|c rest IH]; intros c0; [reflexivity|].
  rewrite last_cons_default. exact (IH c).
Qed.

Lemma node_at_index_whole (r : Node) (p : list Z) :
  node_at_index (mkTree r p) (Py.len p) = resolve r p.
Proof.
  unfold Py.len. rewrite node_at_index_resolve by (simpl; lia).
  simpl. rewrite firstn_all. reflexivity.
Qed.

(** The extremal branch below a node leads to a leaf. *)
Lemma extremal_branch_leaf (direction : Z) (node : Node) :
  exists leaf,
    resolve node (extremal_branch direction node) = Ok leaf /\
    children leaf = [].
Proof.
  induction node as [tx ch ct i pid IH] using Node_ind.
  destruct ch as [|c0 rest].
  - simpl. eexists; split; reflexivity.
  - rewrite extremal_branch_eq.
    destruct (direction >=? 0) eqn:E.
    + inversion IH as [|? ? (leaf & Hl & Hc) _]; subst.
      exists leaf. split; [|exact Hc]. simpl. exact Hl.
    + destruct (Forall_last IH) as (leaf & Hl & Hc).
      exists leaf. split; [|exact Hc].
      cbn [resolve children].
      rewrite getitem_nonneg by (unfold Py.len; simpl length; lia).
      replace (Z.to_nat (Py.len (c0 :: rest) - 1)) with (length rest)
        by (unfold Py.len; simpl length; lia).
      rewrite nth_error_last. simpl. exact Hl.
Qed.

(** Every call of [switch_stream] that returns is either the no-op or a
    switch at one level [j >= 2] followed by the leaf descent. *)
Lemma switch_loop_cases (self : Tree) (increment : Z) (leaf_explore : bool)
      (original_index : Z) (self' : Tree) (index' : Z) :
  forall (m : nat) (index : Z),
    m = Z.to_nat (index - 1) ->
    switch_loop m self index increment leaf_explore original_index
    = Ok (self', index') ->
    (self' = self /\ index' = original_index) \/
    (exists j parent step node,
        2 <= j <= index /\
        node_at_index self (j - 1) = Ok parent /\
        Py.getitem (current_stream self) (j - 1) = Ok step /\
        0 <= step + increment < Py.len (children parent) /\
        Py.getitem (children parent) (step + increment) = Ok node /\
        self' = mkTree (root self)
                       (firstn (Z.to_nat (j - 1)) (current_stream self)
                          ++ [step + increment]
                          ++ extremal_branch increment node) /\
        index' = if leaf_explore
                 then j + Py.len (extremal_branch increment node)
                 else j).
Proof.
  induction m as [|m IH]; intros index Hm H; simpl in H.
  - left. injection H as <- <-. split; reflexivity.
  - apply bind_Ok_inv in H as (parent & Hp & H).
    apply bind_Ok_inv in H as (step & Hs & H).
    destruct (_ && _) eqn:E.
    + right. apply bind_Ok_inv in H as (node & Hn & H).
      rewrite descend_spec in H. injection H as <- <-.
      apply andb_true_iff in E as [E1 E2].
      apply Z.geb_le in E1. apply Z.ltb_lt in E2.
      exists index, parent, step, node.
      rewrite slice_to_nonneg, <- app_assoc by lia.
      repeat split; auto; lia.
    + destruct (IH (index - 1)) as [Hnoop|(j & p & s & n & Hj & Hrest)];
        [lia|exact H|left; exact Hnoop|].
      right. exists j, p, s, n. split; [lia|exact Hrest].
Qed.

Lemma firstn_length_Z {A} (l : list A) (k : Z) :
  0 <= k <= Py.len l -> Py.len (firstn (Z.to_nat k) l) = k.
Proof.
  intros Hk. unfold Py.len in *. rewrite length_firstn. lia.
Qed.

Lemma switch_found_resolves (self : Tree) (j increment : Z)
      (parent node : Node) (step : Z) :
  2 <= j ->
  node_at_index self (j - 1) = Ok parent ->
  Py.getitem (children parent) (step + increment) = Ok node ->
  exists leaf,
    resolve (root self)
            (firstn (Z.to_nat (j - 1)) (current_stream self)
               ++ [step + increment] ++ extremal_branch increment node)
    = Ok leaf /\
    children leaf = [].
Proof.
  intros Hj Hp Hn.
  destruct (extremal_branch_leaf increment node) as (leaf & Hl & Hc).
  exists leaf. split; [|exact Hc].
  rewrite resolve_app, (node_at_index_position _ _ Hp). simpl.
  rewrite Hn. simpl. exact Hl.
Qed.

Lemma switch_stream_on_path
        (self : Tree) (index increment : Z) (leaf_explore : bool) :
  path_valid self ->
  index <= Py.len (current_stream self) ->
  exists self' index',
    switch_stream self index increment leaf_explore = Ok (self', index') /\
    root self' = root self /\
    path_valid self' /\
    (1 <= index -> 1 <= index' <= Py.len (current_stream self')) /\
    ((self' = self /\ index' = index) \/ at_leaf self').
Proof.
  intros Hv Hi.
  destruct (@switch_stream_total self index increment leaf_explore Hv Hi)
    as [[self' index'] Hsw].
  exists self', index'. split; [exact Hsw|].
  unfold switch_stream in Hsw.
  eapply switch_loop_cases in Hsw; [|reflexivity].
  destruct Hsw
    as [[-> ->]|(j & parent & step & node & Hj & Hp & Hs & Hr & Hn & -> & ->)].
  - repeat split; auto; try lia.
  - destruct (@switch_found_resolves self j increment parent node step)
      as (leaf & Hl & Hc); [lia|exact Hp|exact Hn|].
    apply getitem_Ok_nonneg in Hs as [_ Hlt]; [|lia].
    assert (Py.len (firstn (Z.to_nat (j - 1)) (current_stream self)
                      ++ [step + increment] ++ extremal_branch increment node)
            = j + Py.len (extremal_branch increment node)) as Hlen.
    { rewrite !len_app, firstn_length_Z by lia.
      change (Py.len [step + increment]) with 1. lia. }
    split; [reflexivity|]. split; [|split].
    + exists leaf. rewrite node_at_index_whole. exact Hl.
    + intros _. cbn [current_stream]. rewrite Hlen.
      pose proof (len_nonneg (extremal_branch increment node)).
      destruct (if Py.is_int _ _ then true else leaf_explore); lia.
    + right. exists leaf. cbn [current_stream].
      rewrite node_at_index_whole. split; assumption.
Qed.

(** X1.  On a tree whose path resolves, [switch_stream] with an index on the
    path (at most its length) returns normally; it never changes the nodes
    of the tree; the path it leaves resolves again; the index it returns is
    on the new path when the index passed in was at least 1; and unless the
    call was a no-op the new path ends at a leaf. *)
Theorem switch_stream_keeps_path_on_tree
        (self : Tree) (index increment : Z) (leaf_explore : bool) :
  path_valid self ->
  index <= Py.len (current_stream self) ->
  exists self' index',
    switch_stream self index increment leaf_explore = Ok (self', index') /\
    root self' = root self /\
    path_valid self' /\
    (1 <= index -> 1 <= index' <= Py.len (current_stream self')) /\
    ((self' = self /\ index' = index) \/ at_leaf self').
Proof.
  exact (@switch_stream_on_path self index increment leaf_explore).
Qed.

Lemma switch_stream_keeps_path_on_tree_witness :
  exists self' index',
    switch_stream climb_tree 3 1 false = Ok (self', index') /\
    root self' = root climb_tree /\
    path_valid self' /\
    (1 <= 3 -> 1 <= index' <= Py.len (current_stream self')) /\
    ((self' = climb_tree /\ index' = 3) \/ at_leaf self').
Proof.
  apply (@switch_stream_keeps_path_on_tree climb_tree 3 1 false).
  - eexists; reflexivity.
  - vm_compute; congruence.
Defined.

(** X2.  With [leaf_explore] set, a call of [switch_stream] that moves the
    path returns the length of the new path: the selection it hands back is
    the leaf the descent ended at.  Without [leaf_explore], and with the
    index strictly inside the path, the index returned is never greater than
    the index passed in. *)
Theorem switch_stream_returned_index
        (self self' : Tree) (index index' increment : Z) (leaf_explore : bool) :
  switch_stream self index increment leaf_explore = Ok (self', index') ->
  (self' = self /\ index' = index) \/
  ((leaf_explore = true -> index' = Py.len (current_stream self')) /\
   (leaf_explore = false -> index < Py.len (current_stream self) ->
    2 <= index' <= index)).
Proof.
  intros Hsw. unfold switch_stream in Hsw.
  eapply switch_loop_cases in Hsw; [|reflexivity].
  destruct Hsw
    as [[-> ->]|(j & parent & step & node & Hj & Hp & Hs & Hr & Hn & -> & ->)].
  - left. split; reflexivity.
  - right. apply getitem_Ok_nonneg in Hs as [_ Hlt]; [|lia]. split.
    + intros ->. cbn [current_stream].
      rewrite !len_app, firstn_length_Z by lia.
      change (Py.len [step + increment]) with 1.
      destruct (Py.is_int _ _); lia.
    + intros -> Hin. rewrite is_int_lt by assumption. lia.
Qed.

Lemma switch_stream_returned_index_witness :
  (mkTree (root climb_tree) [0; 1] = climb_tree /\ 2 = 3) \/
  ((false = true -> 2 = Py.len (current_stream (mkTree (root climb_tree) [0; 1]))) /\
   (false = false -> 3 < Py.len (current_stream climb_tree) -> 2 <= 2 <= 3)).
Proof.
  apply (@switch_stream_returned_index
           climb_tree (mkTree (root climb_tree) [0; 1]) 3 2 1 false).
  reflexivity.
Defined.

Lemma sibling_check_intro (self : Tree) (j increment : Z)
      (parent : Node) (step : Z) :
  node_at_index self (j - 1) = Ok parent ->
  Py.getitem (current_stream self) (j - 1) = Ok step ->
  0 <= step + increment < Py.len (children parent) ->
  sibling_check self j increment = Ok true.
Proof.
  intros Hp Hs Hr. unfold sibling_check. rewrite Hp. simpl. rewrite Hs. simpl.
  replace (step + increment >=? 0) with true by (symmetry; apply Z.geb_le; lia).
  replace (step + increment <? Py.len (children parent)) with true
    by (symmetry; apply Z.ltb_lt; lia).
  reflexivity.
Qed.

Lemma firstn_app_exact {A} (l l' : list A) (k : nat) :
  (k <= length l)%nat -> firstn k (firstn k l ++ l') = firstn k l.
Proof.
  intros Hk. rewrite firstn_app, firstn_firstn, Nat.min_id, length_firstn.
  replace (k - Nat.min k (length l))%nat with O by lia.
  simpl. apply app_nil_r.
Qed.

Lemma nth_error_app_exact {A} (l l' : list A) (k : nat) (x : A) :
  (k <= length l)%nat -> nth_error (firstn k l ++ x :: l') k = Some x.
Proof.
  intros Hk. rewrite nth_error_app2 by (rewrite length_firstn; lia).
  rewrite length_firstn. replace (k - Nat.min k (length l))%nat with O by lia.
  reflexivity.
Qed.

(** X3.  Direction symmetry.  If the path entry at [depth >= 2] is a child
    index of its parent and the sibling [increment] places away exists, then
    [switch_stream(depth, increment)] followed by
    [switch_stream(depth, -increment)] both return and leave the path with
    its first [depth] entries as they were: the same branch index at
    [depth] (the entries below are those of the extremal descent). *)
Theorem switch_stream_there_and_back
        (self : Tree) (depth increment step : Z) (parent : Node)
        (leaf_explore1 leaf_explore2 : bool) :
  2 <= depth ->
  node_at_index self (depth - 1) = Ok parent ->
  Py.getitem (current_stream self) (depth - 1) = Ok step ->
  0 <= step < Py.len (children parent) ->
  0 <= step + increment < Py.len (children parent) ->
  exists self1 index1 self2 index2,
    switch_stream self depth increment leaf_explore1 = Ok (self1, index1) /\
    switch_stream self1 depth (- increment) leaf_explore2 = Ok (self2, index2) /\
    root self2 = root self /\
    firstn (Z.to_nat depth) (current_stream self2)
    = firstn (Z.to_nat depth) (current_stream self).
Proof.
  intros Hd Hp Hs Hr Hr'.
  assert (0 <= depth - 1) as H0 by lia.
  destruct (@getitem_Ok_nonneg _ _ _ _ H0 Hs) as [Hnth Hlt].
  assert (Z.to_nat (depth - 1) <= length (current_stream self))%nat as Hk
      by (unfold Py.len in Hlt; lia).
  assert (2 <= depth <= depth) as Hdd by lia.
  assert (forall t k, depth < k <= depth ->
                      sibling_check t k increment = Ok false) as Hvac1
      by (intros t k Hk'; lia).
  assert (forall t k, depth < k <= depth ->
                      sibling_check t k (- increment) = Ok false) as Hvac2
      by (intros t k Hk'; lia).
  destruct (@switch_stream_found self depth increment depth leaf_explore1 Hdd
              (@sibling_check_intro self depth increment parent step Hp Hs Hr') (Hvac1 self))
    as (parent1 & step1 & node1 & Hp1 & Hs1 & Hn1 & Hsw1).
  rewrite Hp in Hp1. injection Hp1 as <-.
  rewrite Hs in Hs1. injection Hs1 as <-.
  rewrite slice_to_nonneg in Hsw1 by lia.
  set (cs1 := firstn (Z.to_nat (depth - 1)) (current_stream self)
                ++ [step + increment] ++ extremal_branch increment node1) in *.
  set (self1 := mkTree (root self) cs1) in *.
  assert (node_at_index self1 (depth - 1) = Ok parent) as Hp2.
  { rewrite <- Hp. rewrite <- (Z2Nat.id (depth - 1)) by lia.
    rewrite !node_at_index_resolve; [|exact Hk|].
    - subst self1 cs1. cbn [root current_stream].
      rewrite firstn_app_exact by exact Hk. reflexivity.
    - subst self1 cs1. cbn [current_stream].
      rewrite length_app, length_firstn. lia. }
  assert (Py.getitem (current_stream self1) (depth - 1) = Ok (step + increment))
    as Hs2.
  { rewrite getitem_nonneg by lia. subst self1 cs1. cbn [current_stream].
    change ([step + increment] ++ extremal_branch increment node1)
      with ((step + increment) :: extremal_branch increment node1).
    rewrite nth_error_app_exact by exact Hk. reflexivity. }
  assert (0 <= step + increment + - increment < Py.len (children parent))
    as Hback by lia.
  destruct (@switch_stream_found self1 depth (- increment) depth leaf_explore2 Hdd
              (@sibling_check_intro self1 depth (- increment) parent (step + increment) Hp2 Hs2 Hback) (Hvac2 self1))
    as (parent2 & step2 & node2 & Hp2' & Hs2' & Hn2 & Hsw2).
  rewrite Hp2 in Hp2'. injection Hp2' as <-.
  rewrite Hs2 in Hs2'. injection Hs2' as <-.
  rewrite slice_to_nonneg in Hsw2 by lia.
  eexists self1, _, _, _. split; [exact Hsw1|]. split; [exact Hsw2|].
  split; [reflexivity|].
  subst self1 cs1. cbn [current_stream].
  rewrite firstn_app_exact by exact Hk.
  replace (step + increment + - increment) with step by lia.
  replace (Z.to_nat depth) with (S (Z.to_nat (depth - 1))) by lia.
  rewrite (firstn_succ_nth _ _ Hnth).
  rewrite firstn_app, length_firstn.
  replace (S (Z.to_nat (depth - 1)) - Nat.min (Z.to_nat (depth - 1))
                                              (length (current_stream self)))%nat
    with 1%nat by lia.
  rewrite firstn_all2 by (rewrite length_firstn; lia).
  reflexivity.
Qed.

Lemma switch_stream_there_and_back_witness :
  exists self1 index1 self2 index2,
    switch_stream hello_tree_siblings 2 1 false = Ok (self1, index1) /\
    switch_stream self1 2 (- (1)) false = Ok (self2, index2) /\
    root self2 = root hello_tree_siblings /\
    firstn (Z.to_nat 2) (current_stream self2)
    = firstn (Z.to_nat 2) (current_stream hello_tree_siblings).
Proof.
  apply (@switch_stream_there_and_back
           hello_tree_siblings 2 1 0
           (mkNode (Py.lit "A")
                   [mkNode (Py.lit "B") [] 12 2 (Some 1);
                    mkNode (Py.lit "C") [] 13 3 (Some 1)] 11 1 (Some 0))
           false false).
  - lia.
  - reflexivity.
  - reflexivity.
  - vm_compute; split; congruence.
  - vm_compute; split; congruence.
Defined.

(** ** The stream views *)

Lemma getitem_map {A B} (f : A -> B) (l : list A) (i : Z) (x : A) :
  Py.getitem l i = Ok x -> Py.getitem (map f l) i = Ok (f x).
Proof.
  unfold Py.getitem, Py.len. rewrite length_map.
  destruct ((_ <? 0) || _); [discriminate|].
  rewrite nth_error_map.
  destruct (nth_error l _); [|discriminate].
  intros H. injection H as ->. reflexivity.
Qed.

Lemma resolve_step (node : Node) (p : list Z) (i : nat) (step : Z) :
  nth_error p i = Some step ->
  resolve node (firstn (S i) p) =
    (parent <- resolve node (firstn i p) ;; Py.getitem (children parent) step).
Proof.
  intros H. rewrite (firstn_succ_nth _ _ H), resolve_app.
  destruct (resolve node (firstn i p)) as [parent|e]; simpl; [|reflexivity].
  destruct (Py.getitem (children parent) step); reflexivity.
Qed.

Lemma get_stream_fold (p : list Z) :
  forall (node : Node) (acc : list StreamItem) (r : Node * list StreamItem),
    foldM (fun (st : Node * list StreamItem) step =>
             let '(node, stream) := st in
             let n := Py.len (children node) in
             node' <- Py.getitem (children node) step ;;
             Ok (node', stream ++ [mkStreamItem (text node') step (n - step - 1)]))
          p (node, acc) = Ok r ->
    resolve node p = Ok (fst r) /\
    exists items,
      snd r = acc ++ items /\
      length items = length p /\
      forall i step,
        nth_error p i = Some step ->
        exists parent child,
          resolve node (firstn i p) = Ok parent /\
          Py.getitem (children parent) step = Ok child /\
          nth_error items i
          = Some (mkStreamItem (text child) step
                               (Py.len (children parent) - step - 1)).
Proof.
  induction p as [|s p IH]; intros node acc r H; simpl in H.
  - injection H as <-. split; [reflexivity|]. exists []. simpl.
    rewrite app_nil_r. repeat split. intros [|i] step Hn; discriminate.
  - apply bind_Ok_inv in H as ([c st] & Hc & H).
    apply bind_Ok_inv in Hc as (c' & Hg & Hc). injection Hc as <- <-.
    destruct (IH _ _ _ H) as (Hres & items & Hitems & Hlen & Hnth).
    split; [simpl; rewrite Hg; exact Hres|].
    exists (mkStreamItem (text c') s (Py.len (children node) - s - 1) :: items).
    split; [rewrite Hitems, <- app_assoc; reflexivity|].
    split; [simpl; lia|].
    intros [|i] step Hn; simpl in Hn.
    + injection Hn as <-. exists node, c'. repeat split. exact Hg.
    + destruct (Hnth i step Hn) as (parent & child & Hr & Hgc & Hit).
      exists parent, child. simpl. rewrite Hg. simpl. auto.
Qed.

Lemma get_stream_fold_total (p : list Z) :
  forall (node m : Node) (acc : list StreamItem),
    resolve node p = Ok m ->
    exists st,
      foldM (fun (st : Node * list StreamItem) step =>
               let '(node, stream) := st in
               let n := Py.len (children node) in
               node' <- Py.getitem (children node) step ;;
               Ok (node', stream ++ [mkStreamItem (text node') step (n - step - 1)]))
            p (node, acc) = Ok (m, st).
Proof.
  induction p as [|s p IH]; intros node m acc H; simpl in H |- *.
  - injection H as <-. eauto.
  - destruct (Py.getitem (children node) s) as [c|e]; simpl in *; [|discriminate].
    apply IH. exact H.
Qed.

Lemma get_stream_with_siblings_fold (p : list Z) :
  forall (node : Node) (acc : list SiblingsItem) (r : Node * list SiblingsItem),
    foldM (fun (st : Node * list SiblingsItem) step =>
             let '(node, stream) := st in
             let stream :=
               stream ++ [mkSiblingsItem (map text (children node)) step] in
             node' <- Py.getitem (children node) step ;;
             Ok (node', stream))
          p (node, acc) = Ok r ->
    exists items,
      snd r = acc ++ items /\
      length items = length p /\
      forall i step,
        nth_error p i = Some step ->
        exists parent,
          resolve node (firstn i p) = Ok parent /\
          nth_error items i
          = Some (mkSiblingsItem (map text (children parent)) step).
Proof.
  induction p as [|s p IH]; intros node acc r H; simpl in H.
  - injection H as <-. exists []. simpl. rewrite app_nil_r.
    repeat split. intros [|i] step Hn; discriminate.
  - apply bind_Ok_inv in H as ([c st] & Hc & H).
    apply bind_Ok_inv in Hc as (c' & Hg & Hc). injection Hc as <- <-.
    destruct (IH _ _ _ H) as (items & Hitems & Hlen & Hnth).
    exists (mkSiblingsItem (map text (children node)) s :: items).
    split; [rewrite Hitems, <- app_assoc; reflexivity|].
    split; [simpl; lia|].
    intros [|i] step Hn; simpl in Hn.
    + injection Hn as <-. exists node. repeat split.
    + destruct (Hnth i step Hn) as (parent & Hr & Hit).
      exists parent. simpl. rewrite Hg. simpl. auto.
Qed.

Lemma get_stream_with_siblings_fold_total (p : list Z) :
  forall (node m : Node) (acc : list SiblingsItem),
    resolve node p = Ok m ->
    exists st,
      foldM (fun (st : Node * list SiblingsItem) step =>
               let '(node, stream) := st in
               let stream :=
                 stream ++ [mkSiblingsItem (map text (children node)) step] in
               node' <- Py.getitem (children node) step ;;
               Ok (node', stream))
            p (node, acc) = Ok (m, st).
Proof.
  induction p as [|s p IH]; intros node m acc H; simpl in H |- *.
  - injection H as <-. eauto.
  - destruct (Py.getitem (children node) s) as [c|e]; simpl in *; [|discriminate].
    apply IH. exact H.
Qed.

Lemma path_valid_resolve (self : Tree) :
  path_valid self <-> exists m, resolve (root self) (current_stream self) = Ok m.
Proof.
  unfold path_valid. destruct self as [r p]. rewrite node_at_index_whole.
  reflexivity.
Qed.

Lemma get_stream_unfold (self : Tree) :
  get_stream self =
    (r <- foldM (fun (st : Node * list StreamItem) step =>
                   let '(node, stream) := st in
                   let n := Py.len (children node) in
                   node' <- Py.getitem (children node) step ;;
                   Ok (node', stream ++ [mkStreamItem (text node') step (n - step - 1)]))
                (current_stream self) (root self, []) ;;
     Ok (snd r)).
Proof. reflexivity. Qed.

Lemma get_stream_with_siblings_unfold (self : Tree) :
  get_stream_with_siblings self =
    (r <- foldM (fun (st : Node * list SiblingsItem) step =>
                   let '(node, stream) := st in
                   let stream :=
                     stream ++ [mkSiblingsItem (map text (children node)) step] in
                   node' <- Py.getitem (children node) step ;;
                   Ok (node', stream))
                (current_stream self) (root self, []) ;;
     Ok (snd r)).
Proof. reflexivity. Qed.

(** X4.  [get_stream] returns exactly when the current path resolves (it
    raises otherwise), with one item per path entry; the item at position
    [k - 1] carries the text of [node_at_index(k)], the path entry itself as
    [num_before] and, as [num_after], the child count of [node_at_index(k-1)]
    minus the entry minus one. *)
Theorem get_stream_agrees_with_node_at_index (self : Tree) :
  (path_valid self <-> exists stream, get_stream self = Ok stream) /\
  (forall stream,
      get_stream self = Ok stream ->
      Py.len stream = Py.len (current_stream self) /\
      forall k,
        1 <= k <= Py.len (current_stream self) ->
        exists parent step child,
          node_at_index self (k - 1) = Ok parent /\
          Py.getitem (current_stream self) (k - 1) = Ok step /\
          node_at_index self k = Ok child /\
          Py.getitem stream (k - 1)
          = Ok (mkStreamItem (text child) step
                             (Py.len (children parent) - step - 1))).
Proof.
  split.
  - rewrite path_valid_resolve, get_stream_unfold. split.
    + intros [m Hm].
      destruct (get_stream_fold_total _ _ [] Hm) as [st Hst].
      rewrite Hst. simpl. eauto.
    + intros [stream H]. apply bind_Ok_inv in H as (r & Hr & _).
      apply get_stream_fold in Hr as [Hres _]. eauto.
  - intros stream H. rewrite get_stream_unfold in H.
    apply bind_Ok_inv in H as (r & Hr & H). injection H as <-.
    apply get_stream_fold in Hr as (_ & items & Hitems & Hlen & Hnth).
    simpl in Hitems. rewrite Hitems.
    split; [unfold Py.len; rewrite Hlen; reflexivity|].
    intros k Hk.
    set (i := Z.to_nat (k - 1)).
    assert (i < length (current_stream self))%nat as Hi
        by (unfold Py.len in Hk; lia).
    assert (Z.of_nat i = k - 1) as Hik by lia. clearbody i.
    destruct (nth_error (current_stream self) i) as [step|] eqn:Hstep;
      [|apply nth_error_None in Hstep; lia].
    destruct (Hnth i step Hstep) as (parent & child & Hp & Hc & Hit).
    exists parent, step, child.
    replace (k - 1) with (Z.of_nat i) by lia.
    replace (node_at_index self k) with (node_at_index self (Z.of_nat (S i)))
      by (f_equal; lia).
    rewrite !node_at_index_resolve by lia.
    rewrite (resolve_step _ _ _ Hstep), Hp. simpl.
    rewrite (getitem_nonneg (current_stream self)) by lia.
    rewrite (getitem_nonneg items) by lia.
    rewrite !Nat2Z.id, Hstep, Hit.
    repeat split. exact Hc.
Qed.

Lemma get_stream_agrees_with_node_at_index_witness :
  path_valid lineage_tree /\
  exists stream, get_stream lineage_tree = Ok stream.
Proof.
  assert (path_valid lineage_tree) as H by (eexists; reflexivity).
  split; [exact H|].
  apply (proj1 (proj1 (get_stream_agrees_with_node_at_index lineage_tree)) H).
Defined.

(** X5.  On a path that resolves, [get_stream] and
    [get_stream_with_siblings] both return, with one item per path entry,
    and the two views agree at every depth: [nodes_to_left] is [num_before],
    [num_before + num_after + 1] is the number of sibling texts, and the text
    of the single view is the sibling text at index [nodes_to_left]. *)
Theorem stream_views_agree (self : Tree) :
  path_valid self ->
  exists stream siblings,
    get_stream self = Ok stream /\
    get_stream_with_siblings self = Ok siblings /\
    length stream = length (current_stream self) /\
    length siblings = length (current_stream self) /\
    forall i a b,
      nth_error stream i = Some a ->
      nth_error siblings i = Some b ->
      nodes_to_left b = num_before a /\
      num_before a + num_after a + 1 = Py.len (texts b) /\
      Py.getitem (texts b) (nodes_to_left b) = Ok (item_text a).
Proof.
  rewrite path_valid_resolve. intros [m Hm].
  rewrite get_stream_unfold, get_stream_with_siblings_unfold.
  destruct (get_stream_fold_total _ _ [] Hm) as [st Hst].
  destruct (get_stream_with_siblings_fold_total _ _ [] Hm) as [sb Hsb].
  rewrite Hst, Hsb. simpl. exists st, sb.
  apply get_stream_fold in Hst as (_ & items & Hitems & Hlen & Hnth).
  apply get_stream_with_siblings_fold in Hsb as (sitems & Hsitems & Hslen & Hsnth).
  simpl in Hitems, Hsitems. subst st sb.
  repeat split; auto.
  all: destruct (nth_error (current_stream self) i) as [step|] eqn:Hstep;
    [|apply nth_error_None in Hstep;
      assert (nth_error items i <> None) as Hx by congruence;
      apply nth_error_Some in Hx; lia].
  all: destruct (Hnth i step Hstep) as (parent & child & Hp & Hc & Hit).
  all: destruct (Hsnth i step Hstep) as (parent' & Hp' & Hsit).
  all: rewrite Hp in Hp'; injection Hp' as <-.
  all: rewrite Hit in H; injection H as <-.
  all: rewrite Hsit in H0; injection H0 as <-.
  all: simpl.
  - reflexivity.
  - unfold Py.len. rewrite length_map. lia.
  - apply getitem_map. exact Hc.
Qed.

Lemma stream_views_agree_witness :
  exists stream siblings,
    get_stream hello_tree_siblings = Ok stream /\
    get_stream_with_siblings hello_tree_siblings = Ok siblings /\
    length stream = length (current_stream hello_tree_siblings) /\
    length siblings = length (current_stream hello_tree_siblings) /\
    forall i a b,
      nth_error stream i = Some a ->
      nth_error siblings i = Some b ->
      nodes_to_left b = num_before a /\
      num_before a + num_after a + 1 = Py.len (texts b) /\
      Py.getitem (texts b) (nodes_to_left b) = Ok (item_text a).
Proof.
  apply (@stream_views_agree hello_tree_siblings).
  eexists; reflexivity.
Defined.

(** ** utils.text_wrap: layout and content *)

Lemma strip_spaces_app (s t : Py.str) :
  strip_spaces (s ++ t) = strip_spaces s ++ strip_spaces t.
Proof. apply filter_app. Qed.

Lemma split_space_nonempty (s : Py.str) : split_space s <> [].
Proof.
  destruct s as [|c s]; simpl; [discriminate|].
  destruct (Ascii.eqb c " "); [discriminate|].
  destruct (split_space s); discriminate.
Qed.

Lemma split_space_content (s : Py.str) :
  strip_spaces (concat (split_space s)) = strip_spaces s.
Proof.
  induction s as [|c s IH]; [reflexivity|].
  simpl. destruct (Ascii.eqb c " ") eqn:E; simpl.
  - exact IH.
  - destruct (split_space s) as [|w ws] eqn:Hs;
      [exfalso; exact (split_space_nonempty _ Hs)|].
    simpl in *. rewrite E. simpl. f_equal. exact IH.
Qed.

Lemma wrap_long_content (line_length : Z) :
  forall (fuel : nat) (lines : list Py.str) (line word : Py.str)
         (lines' : list Py.str) (line' word' : Py.str),
    wrap_long fuel line_length lines line word = Some (lines', line', word') ->
    concat lines' ++ line' ++ word' = concat lines ++ line ++ word.
Proof.
  induction fuel as [|fuel IH]; intros lines line word lines' line' word' H;
    simpl in H.
  - destruct (_ >? _); [discriminate|]. injection H as <- <- <-. reflexivity.
  - destruct (_ >? _); [|injection H as <- <- <-; reflexivity].
    destruct (truthy line) eqn:Ht; apply IH in H; rewrite H.
    + rewrite !concat_app. simpl. rewrite !app_nil_r, <- !app_assoc.
      unfold Py.slice_to, Py.slice_from. rewrite firstn_skipn. reflexivity.
    + destruct line; [|discriminate].
      rewrite !concat_app. simpl. rewrite !app_nil_r, <- !app_assoc.
      unfold Py.slice_to, Py.slice_from. rewrite firstn_skipn. reflexivity.
Qed.

Lemma wrap_long_lengths (line_length : Z) :
  0 <= line_length ->
  forall (fuel : nat) (lines : list Py.str) (line word : Py.str)
         (lines' : list Py.str) (line' word' : Py.str),
    wrap_long fuel line_length lines line word = Some (lines', line', word') ->
    Forall (fun l => Py.len l <= line_length) lines ->
    Py.len line <= line_length ->
    Forall (fun l => Py.len l <= line_length) lines' /\
    Py.len line' <= line_length /\
    Py.len word' <= line_length.
Proof.
  intros HL.
  induction fuel as [|fuel IH]; intros lines line word lines' line' word' H Hl Hn;
    simpl in H.
  - destruct (_ >? _) eqn:E; [discriminate|]. injection H as <- <- <-.
    repeat split; auto. rewrite Z.gtb_ltb in E. apply Z.ltb_ge in E. exact E.
  - destruct (_ >? _) eqn:E.
    + assert (Py.len (Py.slice_to word line_length) <= line_length) as Hs.
      { rewrite len_slice_to, bound_spec.
        destruct (line_length <? 0) eqn:E'; lia. }
      destruct (truthy line).
      * apply (IH _ _ _ _ _ _ H); [|unfold Py.len; simpl; lia].
        apply Forall_app. split; [|constructor; [exact Hs|constructor]].
        apply Forall_app. split; [exact Hl|constructor; [exact Hn|constructor]].
      * apply (IH _ _ _ _ _ _ H); [|exact Hn].
        apply Forall_app. split; [exact Hl|constructor; [exact Hs|constructor]].
    + injection H as <- <- <-.
      repeat split; auto. rewrite Z.gtb_ltb in E. apply Z.ltb_ge in E. exact E.
Qed.

Lemma wrap_words_content (line_length : Z) :
  forall (words lines : list Py.str) (line : Py.str)
         (lines' : list Py.str) (line' : Py.str),
    wrap_words line_length words lines line = Some (lines', line') ->
    strip_spaces (concat lines' ++ line')
    = strip_spaces (concat lines ++ line ++ concat words).
Proof.
  induction words as [|word words IH]; intros lines line lines' line' H;
    simpl in H.
  - injection H as <- <-. simpl. rewrite app_nil_r. reflexivity.
  - destruct (wrap_long _ _ _ _ _) as [[[l1 n1] w1]|] eqn:Hw; [|discriminate].
    apply wrap_long_content in Hw.
    assert (strip_spaces ((concat l1 ++ n1 ++ w1) ++ concat words)
            = strip_spaces (concat lines ++ line ++ concat (word :: words)))
      as Hgoal.
    { rewrite Hw. simpl. rewrite <- !app_assoc. reflexivity. }
    rewrite <- Hgoal. clear Hgoal Hw.
    destruct (_ >? _); apply IH in H; rewrite H; clear H.
    + rewrite concat_app. simpl. rewrite app_nil_r, <- !app_assoc. reflexivity.
    + rewrite <- !app_assoc, !strip_spaces_app.
      destruct (truthy n1); reflexivity.
Qed.

Lemma wrap_words_lengths (line_length : Z) :
  0 <= line_length ->
  forall (words lines : list Py.str) (line : Py.str)
         (lines' : list Py.str) (line' : Py.str),
    wrap_words line_length words lines line = Some (lines', line') ->
    Forall (fun l => Py.len l <= line_length) lines ->
    Py.len line <= line_length ->
    Forall (fun l => Py.len l <= line_length) lines' /\
    Py.len line' <= line_length.
Proof.
  intros HL.
  induction words as [|word words IH]; intros lines line lines' line' H Hl Hn;
    simpl in H.
  - injection H as <- <-. split; assumption.
  - destruct (wrap_long _ _ _ _ _) as [[[l1 n1] w1]|] eqn:Hw; [|discriminate].
    destruct (@wrap_long_lengths line_length HL _ _ _ _ _ _ _ Hw Hl Hn)
      as (Hl1 & Hn1 & Hw1).
    destruct (_ >? _) eqn:E.
    + apply (IH _ _ _ _ H); [|exact Hw1].
      apply Forall_app. split; [exact Hl1|constructor; [exact Hn1|constructor]].
    + apply (IH _ _ _ _ H); [exact Hl1|].
      rewrite Z.gtb_ltb in E. apply Z.ltb_ge in E.
      rewrite len_app. destruct n1; simpl truthy; cbv iota.
      * unfold Py.len in *; simpl in *; lia.
      * change (" "%char :: w1) with ([" "%char] ++ w1). rewrite len_app.
        change (Py.len [" "%char]) with 1. lia.
Qed.

(** X6.  With a line length of at least 1, [text_wrap] returns a list that
    is never empty, and no line in it is longer than the line length. *)
Theorem text_wrap_lines_fit (text : Py.str) (line_length : Z) :
  1 <= line_length ->
  exists lines,
    text_wrap text line_length = Some lines /\
    lines <> [] /\
    Forall (fun line => Py.len line <= line_length) lines.
Proof.
  intros HL.
  destruct (text_wrap_total text HL) as [lines H].
  exists lines. split; [exact H|].
  unfold text_wrap in H.
  destruct (wrap_words _ _ _ _) as [[ls l]|] eqn:Hw; [|discriminate].
  injection H as <-. split.
  - destruct ls; discriminate.
  - destruct (@wrap_words_lengths line_length ltac:(lia) _ _ _ _ _ Hw)
      as [Hls Hl]; [constructor|unfold Py.len; simpl; lia|].
    apply Forall_app. split; [exact Hls|constructor; [exact Hl|constructor]].
Qed.

Lemma text_wrap_lines_fit_witness :
  exists lines,
    text_wrap (Py.lit "to be or not to be") 7 = Some lines /\
    lines <> [] /\
    Forall (fun line => Py.len line <= 7) lines.
Proof.
  apply (@text_wrap_lines_fit (Py.lit "to be or not to be") 7). lia.
Defined.

(** X7.  [text_wrap] neither loses nor invents a character other than a
    space: the lines it returns, put end to end and with the spaces removed,
    are the text with its spaces removed. *)
Theorem text_wrap_keeps_content (text : Py.str) (line_length : Z)
        (lines : list Py.str) :
  text_wrap text line_length = Some lines ->
  strip_spaces (concat lines) = strip_spaces text.
Proof.
  unfold text_wrap. intros H.
  destruct (wrap_words _ _ _ _) as [[ls l]|] eqn:Hw; [|discriminate].
  injection H as <-.
  apply wrap_words_content in Hw. simpl in Hw.
  rewrite concat_app. simpl. rewrite app_nil_r, Hw.
  apply split_space_content.
Qed.

Lemma text_wrap_keeps_content_witness :
  strip_spaces (concat [Py.lit "to be"; Py.lit "or not"; Py.lit "to be"])
  = strip_spaces (Py.lit "to be or not to be").
Proof.
  apply (@text_wrap_keeps_content (Py.lit "to be or not to be") 7).
  reflexivity.
Defined.

(** ** Identities in the trees a process builds *)

Lemma ids_node tx ch ct i pid :
  ids (mkNode tx ch ct i pid) = i :: flat_map ids ch.
Proof.
  unfold ids. simpl. f_equal.
  induction ch as [|c ch IH]; simpl; [reflexivity|].
  rewrite map_app, IH. reflexivity.
Qed.

Lemma replace_nth_flat_map_perm {A B} (g : A -> list B) (extra : list B)
      (k : nat) (c c' : A) (l : list A) :
  nth_error l k = Some c ->
  Permutation (g c') (extra ++ g c) ->
  Permutation (flat_map g (replace_nth k c' l)) (extra ++ flat_map g l).
Proof.
  revert k; induction l as [|a l IH]; intros [|k] Hn Hp; simpl in *;
    try discriminate.
  - injection Hn as ->. rewrite app_assoc.
    apply Permutation_app_tail. exact Hp.
  - rewrite (IH k Hn Hp), !app_assoc.
    apply Permutation_app_tail, Permutation_app_comm.
Qed.

Lemma modify_at_ids (new_node : Node) (p : list Z) :
  forall n n' s,
    resolve n p = Ok s ->
    modify_at n p (fun s => add_child s new_node) = Ok n' ->
    Permutation (ids n') (ids new_node ++ ids n).
Proof.
  induction p as [|step p IH]; intros n n' s H Hm; simpl in *.
  - injection Hm as <-. destruct n as [tx ch ct i pid].
    unfold add_child. simpl. rewrite !ids_node, flat_map_app. simpl.
    rewrite app_nil_r.
    apply Permutation_cons_app, Permutation_app_comm.
  - destruct (Py.getitem (children n) step) as [c|e] eqn:Hg; simpl in *;
      [|discriminate].
    destruct (modify_at c p _) as [c'|e] eqn:Hc'; simpl in *; [|discriminate].
    injection Hm as <-. destruct n as [tx ch ct i pid]. simpl in *.
    rewrite !ids_node.
    destruct (getitem_norm _ _ Hg) as [Hn _].
    rewrite (@replace_nth_flat_map_perm _ _ ids (ids new_node) _ c c' ch Hn
               (IH _ _ _ H Hc')).
    apply Permutation_middle.
Qed.

Lemma range_NoDup (n : Z) : NoDup (Py.range n).
Proof.
  unfold Py.range. apply Finite.Injective_map_NoDup; [|apply seq_NoDup].
  intros x y. apply Nat2Z.inj.
Qed.

Lemma created_ids (self : Tree) (node_id : Z) :
  created self node_id ->
  0 <= node_id /\ Permutation (ids (root self)) (Py.range node_id).
Proof.
  induction 1 as [now|self nid now text index self' nid' _ [Hpos IH] Hg
                 |self nid index inc le self' index' _ IH Hs].
  - split; [simpl; lia|]. reflexivity.
  - unfold grow, Node_init in Hg.
    apply bind_Ok_inv in Hg as (sel & Hsel & Hg).
    apply bind_Ok_inv in Hg as (root' & Hmod & Hg).
    injection Hg as <- <-. simpl. split; [lia|].
    apply node_at_index_position in Hsel.
    rewrite (@modify_at_ids _ _ _ _ _ Hsel Hmod), range_succ by lia.
    rewrite ids_node. simpl.
    apply Permutation_cons_app. rewrite app_nil_r. exact IH.
  - unfold switch_stream in Hs. rewrite (switch_loop_root _ _ _ _ _ _ Hs).
    exact IH.
Qed.

(** X8.  In a tree built by one process ([Tree()], then any calls of [grow]
    and [switch_stream] that return), the node ids are exactly
    [0, ..., Node.node_id - 1], each once: the id column of the export has
    no duplicate, and the number of nodes is the value of the counter. *)
Theorem created_ids_unique (self : Tree) (node_id : Z) :
  created self node_id ->
  Permutation (map row_node_id (export_tree_to_csv self)) (Py.range node_id) /\
  NoDup (map row_node_id (export_tree_to_csv self)) /\
  Z.of_nat (node_count (root self)) = node_id.
Proof.
  intros Hc. destruct (created_ids Hc) as [Hpos Hperm].
  assert (map row_node_id (export_tree_to_csv self) = ids (root self)) as E.
  { unfold export_tree_to_csv. rewrite collect_node_data_spec. simpl.
    apply preorder_rows_ids. }
  rewrite E. split; [exact Hperm|]. split.
  - apply (Permutation_NoDup (Permutation_sym Hperm)), range_NoDup.
  - rewrite <- nodes_length, <- (length_map id).
    change (map id (nodes (root self))) with (ids (root self)).
    rewrite (Permutation_length Hperm). unfold Py.range.
    rewrite length_map, length_seq. lia.
Qed.

Lemma created_hello_tree : created hello_tree 2.
Proof.
  apply (@created_grow fresh_tree 1 20 (Py.lit "hello") 0 hello_tree 2).
  - apply (created_init 10).
  - reflexivity.
Qed.

Lemma created_ids_unique_witness :
  Permutation (map row_node_id (export_tree_to_csv hello_tree)) (Py.range 2) /\
  NoDup (map row_node_id (export_tree_to_csv hello_tree)) /\
  Z.of_nat (node_count (root hello_tree)) = 2.
Proof.
  apply (@created_ids_unique hello_tree 2). exact created_hello_tree.
Defined.

Lemma modify_at_record (new_node : Node) (p : list Z) (n n' s : Node) :
  resolve n p = Ok s ->
  modify_at n p (fun s => add_child s new_node) = Ok n' ->
  same_record n n'.
Proof.
  intros H Hm.
  destruct (@modify_at_lookup new_node p n n' s H Hm [] n eq_refl)
    as (m' & Hm' & Hrec).
  simpl in Hm'. injection Hm' as <-. exact Hrec.
Qed.

Lemma links_ok_child (n c : Node) (k : nat) :
  links_ok n -> nth_error (children n) k = Some c -> links_ok c.
Proof.
  intros Hn Hk q j p d Hq Hj.
  apply (Hn (k :: q) j p d); [|exact Hj].
  simpl. rewrite Hk. exact Hq.
Qed.

Lemma modify_at_links (new_node : Node) (p : list Z) :
  forall n n' s,
    resolve n p = Ok s ->
    modify_at n p (fun s => add_child s new_node) = Ok n' ->
    parent_id new_node = Some (id s) ->
    children new_node = [] ->
    links_ok n ->
    links_ok n'.
Proof.
  induction p as [|step p IH]; intros n n' s H Hm Hpid Hleaf Hn.
  - simpl in H, Hm. injection H as <-. injection Hm as <-.
    intros q k p0 c Hq Hk.
    destruct q as [|j q]; simpl in Hq.
    + injection Hq as <-. simpl in *.
      destruct (Nat.lt_ge_cases k (length (children n))) as [Hlt|Hge].
      * rewrite nth_error_app1 in Hk by exact Hlt.
        exact (Hn [] k n c eq_refl Hk).
      * rewrite nth_error_app2 in Hk by exact Hge.
        destruct (k - length (children n))%nat as [|k']; simpl in Hk;
          [|destruct k'; discriminate].
        injection Hk as <-. exact Hpid.
    + destruct (Nat.lt_ge_cases j (length (children n))) as [Hlt|Hge].
      * rewrite nth_error_app1 in Hq by exact Hlt.
        apply (Hn (j :: q) k p0 c); [|exact Hk]. exact Hq.
      * rewrite nth_error_app2 in Hq by exact Hge.
        destruct (j - length (children n))%nat as [|j']; simpl in Hq;
          [|destruct j'; discriminate].
        destruct q as [|i q]; simpl in Hq.
        -- injection Hq as <-. rewrite Hleaf in Hk. destruct k; discriminate.
        -- rewrite Hleaf in Hq. destruct i; discriminate.
  - simpl in H, Hm.
    destruct (Py.getitem (children n) step) as [c|e] eqn:Hg; simpl in *;
      [|discriminate].
    destruct (modify_at c p _) as [c'|e] eqn:Hc'; simpl in *; [|discriminate].
    injection Hm as <-.
    destruct (getitem_norm _ _ Hg) as [Hnth Hlt].
    set (k0 := norm_index (children n) step) in *.
    pose proof (links_ok_child k0 Hn Hnth) as Hcl.
    pose proof (IH c c' s H Hc' Hpid Hleaf Hcl) as Hc'l.
    destruct (@modify_at_record new_node p c c' s H Hc') as (_ & _ & Hid & Hpar).
    intros q k p0 d Hq Hk.
    destruct q as [|j q]; simpl in Hq.
    + injection Hq as <-. simpl in *.
      destruct (Nat.eq_dec k k0) as [->|Hne].
      * rewrite replace_nth_same in Hk by exact Hlt. injection Hk as <-.
        rewrite Hpar. exact (Hn [] k0 n c eq_refl Hnth).
      * rewrite replace_nth_other in Hk by exact Hne.
        exact (Hn [] k n d eq_refl Hk).
    + destruct (Nat.eq_dec j k0) as [->|Hne].
      * rewrite replace_nth_same in Hq by exact Hlt.
        exact (Hc'l q k p0 d Hq Hk).
      * rewrite replace_nth_other in Hq by exact Hne.
        apply (Hn (j :: q) k p0 d); [|exact Hk]. exact Hq.
Qed.

(** X9.  In a tree built by one process the parent links are consistent:
    the root has no parent id, and every other node, wherever it sits in the
    tree, records as [parent_id] the id of the node whose child it is. *)
Theorem created_parent_links (self : Tree) (node_id : Z) :
  created self node_id ->
  parent_id (root self) = None /\
  forall q k p c,
    lookup (root self) q = Some p ->
    nth_error (children p) k = Some c ->
    parent_id c = Some (id p).
Proof.
  induction 1 as [now|self nid now text index self' nid' _ [Hroot IH] Hg
                 |self nid index inc le self' index' _ IH Hs].
  - split; [reflexivity|]. intros q k p c Hq Hk.
    destruct q as [|j q]; simpl in Hq.
    + injection Hq as <-. destruct k; discriminate.
    + destruct j; discriminate.
  - unfold grow, Node_init in Hg.
    apply bind_Ok_inv in Hg as (sel & Hsel & Hg).
    apply bind_Ok_inv in Hg as (root' & Hmod & Hg).
    injection Hg as <- <-. simpl.
    apply node_at_index_position in Hsel.
    destruct (@modify_at_record _ _ _ _ _ Hsel Hmod) as (_ & _ & _ & Hpar).
    split; [rewrite Hpar; exact Hroot|].
    apply (@modify_at_links _ _ _ _ _ Hsel Hmod); [reflexivity|reflexivity|exact IH].
  - unfold switch_stream in Hs. rewrite (switch_loop_root _ _ _ _ _ _ Hs).
    exact IH.
Qed.

Lemma created_parent_links_witness :
  parent_id (root hello_tree) = None /\
  forall q k p c,
    lookup (root hello_tree) q = Some p ->
    nth_error (children p) k = Some c ->
    parent_id c = Some (id p).
Proof.
  apply (@created_parent_links hello_tree 2). exact created_hello_tree.
Defined.

(** ** The editor stays on its path *)

Lemma slice_from_nonneg {A} (l : list A) (k : Z) :
  0 <= k -> Py.slice_from l k = skipn (Z.to_nat k) l.
Proof.
  intros Hk. unfold Py.slice_from, Py.bound.
  destruct (k <? 0) eqn:E; [lia|].
  destruct (Z.le_gt_cases k (Py.len l)).
  - f_equal; lia.
  - replace (Z.to_nat (Z.min (Z.max k 0) (Py.len l))) with (length l)
      by (unfold Py.len in *; lia).
    rewrite skipn_all, skipn_all2; [reflexivity|unfold Py.len in *; lia].
Qed.

Lemma grow_returns (now : timestamp) (self : Tree) (text : Py.str)
      (index node_id : Z) :
  path_valid self ->
  0 <= index <= Py.len (current_stream self) ->
  exists self' node_id',
    grow now self text index node_id = Ok (self', node_id') /\
    path_valid self' /\
    Py.len (current_stream self') = index + 1.
Proof.
  intros [last Hlast] Hi.
  destruct (node_at_index_prefix self (j := index) Hlast) as [sel Hsel]; [lia|].
  pose proof (node_at_index_position _ _ Hsel) as Hres.
  set (new := mkNode text [] now node_id (Some (id sel))).
  destruct (modify_at_defined new _ _ Hres) as [root' Hmod].
  unfold grow. rewrite Hsel. simpl bind. cbv zeta. unfold Node_init.
  fold new. rewrite Hmod. simpl bind.
  do 2 eexists. split; [reflexivity|].
  rewrite slice_to_nonneg by lia. split.
  - exists new. cbn [current_stream]. rewrite node_at_index_whole, resolve_app.
    rewrite (modify_at_resolve new _ _ Hres Hmod). simpl.
    rewrite getitem_len_app. reflexivity.
  - cbn [current_stream]. rewrite len_app, firstn_length_Z by lia.
    reflexivity.
Qed.

Lemma get_stream_returns (self : Tree) :
  path_valid self ->
  exists stream,
    get_stream self = Ok stream /\
    Py.len stream = Py.len (current_stream self).
Proof.
  rewrite path_valid_resolve, get_stream_unfold. intros [m Hm].
  destruct (get_stream_fold_total _ _ [] Hm) as [st Hst].
  rewrite Hst. simpl. exists st. split; [reflexivity|].
  apply get_stream_fold in Hst as (_ & items & Hitems & Hlen & _).
  simpl in Hitems. subst st. unfold Py.len. rewrite Hlen. reflexivity.
Qed.

Section OnPath.

Variable autoloop : bool.

Lemma lines_in_current_para_returns (e : Editor) :
  on_path e -> exists n, lines_in_current_para e = Ok n.
Proof.
  intros (Hv & Hs & Hw). unfold lines_in_current_para.
  destruct (get_stream_returns Hv) as (stream & -> & Hlen). simpl.
  destruct (getitem_in_range stream (i := selected_index e - 1)) as [item ->];
    [lia|]. simpl.
  destruct (text_wrap_total (item_text item) Hw) as [lines ->]. simpl.
  eauto.
Qed.

Lemma set_reading_mode_on_path (e : Editor) :
  path_valid (tree e) ->
  0 <= selected_index e <= Py.len (current_stream (tree e)) ->
  1 <= Py.len (current_stream (tree e)) ->
  1 <= column_width e ->
  exists e', set_reading_mode autoloop e = Ok e' /\ on_path e'.
Proof.
  intros Hv Hs Hl Hw. unfold set_reading_mode. cbv zeta. simpl.
  destruct (selected_index e + 1 >? Py.len (current_stream (tree e))) eqn:E.
  - destruct (@switch_stream_on_path (tree e) (selected_index e + 1 - 1) 1 true Hv)
      as (t' & d & Hsw & _ & Hv' & Hd & Hcase); [lia|].
    rewrite Hsw. simpl. eexists. split; [reflexivity|].
    apply Z.gtb_lt in E.
    assert (1 <= selected_index e + 1 - 1) as H1 by lia.
    specialize (Hd H1).
    unfold on_path. simpl. repeat split; auto; lia.
  - rewrite Z.gtb_ltb in E. apply Z.ltb_ge in E.
    simpl. eexists. split; [reflexivity|].
    unfold on_path. simpl. repeat split; auto; lia.
Qed.

Lemma prev_line_on_path (e : Editor) :
  on_path e -> exists e', prev_line e = Ok e' /\ on_path e'.
Proof.
  intros He. pose proof He as (Hv & Hs & Hw). unfold prev_line. cbv zeta.
  destruct (reading_mode e); simpl.
  - destruct (line_in_para e - 1 =? -1); [|eexists; split; [reflexivity|exact He]].
    destruct (selected_index e =? 1) eqn:E1;
      [eexists; split; [reflexivity|exact He]|].
    apply Z.eqb_neq in E1.
    assert (on_path (with_selected_index (selected_index e - 1)
                       (with_line_in_para (line_in_para e - 1) e))) as He1.
    { unfold on_path. simpl. repeat split; auto; lia. }
    destruct (lines_in_current_para_returns He1) as [n ->]. simpl.
    eexists. split; [reflexivity|exact He1].
  - assert (on_path (with_reading_mode true e)) as He1 by exact He.
    destruct (lines_in_current_para_returns He1) as [n ->]. simpl.
    eexists. split; [reflexivity|exact He1].
Qed.

Lemma prev_lines_on_path (l : list Z) :
  forall e,
    on_path e ->
    exists e', foldM (fun self _ => prev_line self) l e = Ok e' /\ on_path e'.
Proof.
  induction l as [|x l IH]; intros e He; simpl.
  - eauto.
  - destruct (prev_line_on_path He) as (e1 & -> & He1). simpl.
    apply IH. exact He1.
Qed.

Lemma next_para_on_path (e : Editor) (keep : bool) :
  on_path e ->
  Py.len (current_stream (tree e)) <= 256 ->
  on_path (next_para e keep).
Proof.
  intros (Hv & Hs & Hw) Hl. unfold next_para. cbv zeta. simpl.
  unfold Py.is_int.
  destruct (selected_index e =? Py.len (current_stream (tree e))) eqn:E.
  - replace (-5 <=? selected_index e) with true by (symmetry; apply Z.leb_le; lia).
    replace (selected_index e <=? 256) with true by (symmetry; apply Z.leb_le; lia).
    simpl. destruct keep; unfold on_path; simpl; repeat split; auto; lia.
  - apply Z.eqb_neq in E. simpl.
    unfold on_path; simpl; repeat split; auto; lia.
Qed.

Lemma next_line_on_path (e : Editor) :
  on_path e ->
  Py.len (current_stream (tree e)) <= 256 ->
  exists e', next_line autoloop e = Ok e' /\ on_path e'.
Proof.
  intros He Hl. pose proof He as (Hv & Hs & Hw). unfold next_line. cbv zeta.
  destruct (reading_mode e); simpl.
  - assert (on_path (with_line_in_para (line_in_para e + 1) e)) as He1 by exact He.
    destruct (lines_in_current_para_returns He1) as [n ->]. simpl.
    destruct (_ >=? n).
    + eexists. split; [reflexivity|].
      apply next_para_on_path; [exact He1|exact Hl].
    + eexists. split; [reflexivity|exact He1].
  - destruct (current_timer e - 1 =? 0).
    + apply set_reading_mode_on_path; simpl; auto; lia.
    + eexists. split; [reflexivity|exact He].
Qed.

Lemma submit_para_on_path (now : timestamp) (e : Editor) :
  on_path e -> exists e', submit_para autoloop now e = Ok e' /\ on_path e'.
Proof.
  intros (Hv & Hs & Hw). unfold submit_para.
  destruct (@grow_returns now (tree e) (current_text e) (selected_index e)
                          (node_id e) Hv)
    as (t' & nid' & -> & Hv' & Hlen); [lia|].
  simpl. eexists. split; [reflexivity|].
  unfold on_path. simpl. repeat split; auto; lia.
Qed.

Lemma switch_key_on_path (e : Editor) (increment : Z) :
  on_path e ->
  exists e',
    (r <- switch_stream (tree e) (selected_index e) increment false ;;
     Ok (with_selected_index (snd r) (with_tree (fst r) (node_id e) e)))
    = Ok e' /\
    on_path e'.
Proof.
  intros (Hv & Hs & Hw).
  destruct (@switch_stream_on_path (tree e) (selected_index e) increment false Hv)
    as (t' & d & -> & _ & Hv' & Hd & _); [lia|].
  simpl. eexists. split; [reflexivity|].
  unfold on_path. simpl. repeat split; auto; lia.
Qed.

(** X10.  The editor stays on its path.  From any state whose path resolves,
    whose [selected_index] is between 1 and the path length, whose path has
    at most 256 entries and whose [column_width] is at least 1, every key or
    timer event is handled without an exception, and the state reached has
    again a resolving path and a [selected_index] between 1 and the path
    length. *)
Theorem handle_keypress_stays_on_path
        (now : timestamp) (key : Keystroke) (e : Editor) :
  on_path e ->
  Py.len (current_stream (tree e)) <= 256 ->
  exists e', handle_keypress autoloop now key e = Ok e' /\ on_path e'.
Proof.
  intros He Hl. pose proof He as (Hv & Hs & Hw).
  assert (exists e', Ok e = Ok e' /\ on_path e') as Hsame by eauto.
  destruct key as [name|key|]; simpl.
  - destruct name.
    + (* KEY_ENTER *)
      destruct (reading_mode e); [eexists; split; [reflexivity|exact He]|].
      destruct (truthy (current_text e)); [exact (submit_para_on_path now He)|].
      destruct (_ <? _) eqn:E; [|exact Hsame].
      apply Z.ltb_lt in E. apply set_reading_mode_on_path; auto; lia.
    + (* KEY_TAB *)
      destruct (reading_mode e).
      * eexists. split; [reflexivity|]. apply next_para_on_path; assumption.
      * destruct (current_stream (tree e)) eqn:Ecs; [exact Hsame|].
        rewrite <- Ecs in *. apply set_reading_mode_on_path; auto; lia.
    + (* KEY_BACKSPACE *)
      destruct (truthy (current_text e) && negb (reading_mode e));
        [|exact Hsame].
      eexists. split; [reflexivity|exact He].
    + (* KEY_RIGHT *)
      destruct (reading_mode e); [exact (switch_key_on_path 1 He)|].
      eexists. split; [reflexivity|exact He].
    + (* KEY_LEFT *)
      destruct (reading_mode e); [exact (switch_key_on_path (-1) He)|].
      eexists. split; [reflexivity|exact He].
    + (* KEY_DOWN *) exact (next_line_on_path He Hl).
    + (* KEY_UP *) exact (prev_line_on_path He).
    + (* KEY_ESCAPE *)
      destruct (reading_mode e); simpl; [exact Hsame|].
      assert (exists e1,
                 (if truthy (current_text e) then submit_para autoloop now e
                  else Ok e) = Ok e1 /\ on_path e1) as (e1 & -> & He1).
      { destruct (truthy (current_text e));
          [exact (submit_para_on_path now He)|exact Hsame]. }
      simpl. pose proof He1 as (_ & _ & Hw1).
      destruct (text_wrap_total (current_text e1) Hw1) as [lines ->]. simpl.
      apply prev_lines_on_path. exact He1.
    + (* KEY_OTHER *) exact Hsame.
  - (* a character *)
    assert (exists e1,
               (if reading_mode e
                then
                  if Ascii.eqb key "j" || Ascii.eqb key "n"
                  then Ok (next_para e true)
                  else if Ascii.eqb key "k" || Ascii.eqb key "e"
                  then Ok (prev_para e)
                  else if Ascii.eqb key "h" || Ascii.eqb key "m"
                  then
                    r <- switch_stream (tree e) (selected_index e) (-1) false ;;
                    Ok (with_selected_index (snd r)
                          (with_tree (fst r) (node_id e) e))
                  else if Ascii.eqb key "l" || Ascii.eqb key "i"
                  then
                    r <- switch_stream (tree e) (selected_index e) 1 false ;;
                    Ok (with_selected_index (snd r)
                          (with_tree (fst r) (node_id e) e))
                  else if Ascii.eqb key "p"
                  then
                    stream <- get_stream (tree e) ;;
                    item <- Py.getitem stream (selected_index e - 1) ;;
                    Ok (with_shuttle (shuttle e ++ [item_text item]) e)
                  else Ok e
                else Ok e) = Ok e1 /\ on_path e1) as (e1 & -> & He1).
    { destruct (reading_mode e); [|exact Hsame].
      destruct (_ || _).
      { eexists. split; [reflexivity|]. apply next_para_on_path; assumption. }
      destruct (_ || _).
      { eexists. split; [reflexivity|]. unfold prev_para. cbv zeta.
        destruct (_ >? 1) eqn:E; simpl in E; [apply Z.gtb_lt in E|];
          unfold on_path; simpl; repeat split; auto; lia. }
      destruct (_ || _); [exact (switch_key_on_path (-1) He)|].
      destruct (_ || _); [exact (switch_key_on_path 1 He)|].
      destruct (Ascii.eqb key "p"); [|exact Hsame].
      destruct (get_stream_returns Hv) as (stream & -> & Hlen). simpl.
      destruct (getitem_in_range stream (i := selected_index e - 1))
        as [item ->]; [lia|].
      simpl. eexists. split; [reflexivity|exact He]. }
    simpl. destruct (reading_mode e1); simpl;
      eexists; (split; [reflexivity|exact He1]).
  - (* timer event *) exact (next_line_on_path He Hl).
Qed.

End OnPath.

Lemma handle_keypress_stays_on_path_witness :
  exists e',
    handle_keypress true 30 (Sequence KEY_UP)
                    (with_selected_index 1
                       (with_tree hello_tree 2 (Editor_init true 10)))
    = Ok e' /\
    on_path e'.
Proof.
  apply (@handle_keypress_stays_on_path true 30 (Sequence KEY_UP)
           (with_selected_index 1 (with_tree hello_tree 2 (Editor_init true 10)))).
  - split; [eexists; reflexivity|]. split; vm_compute; try split; congruence.
  - vm_compute; congruence.
Defined.

(** ** Typing and deleting *)

Lemma skipn_app_exact {A} (l l' : list A) (k : nat) (x : A) :
  (k <= length l)%nat -> skipn (S k) (firstn k l ++ x :: l') = l'.
Proof.
  intros Hk. rewrite skipn_app, length_firstn.
  rewrite skipn_all2 by (rewrite length_firstn; lia).
  replace (S k - Nat.min k (length l))%nat with 1%nat by lia.
  reflexivity.
Qed.

(** X11.  Insert/delete round trip.  In writing mode, with the cursor
    within the text, typing a character and then pressing Backspace returns
    and restores the editor state exactly: the text, the cursor and every
    other field (the autoscroll timer included) are as before. *)
Theorem type_then_backspace
        (autoloop : bool) (now1 now2 : timestamp) (key : ascii) (e : Editor) :
  reading_mode e = false ->
  cursor_in_text e ->
  exists e1,
    handle_keypress autoloop now1 (Char key) e = Ok e1 /\
    handle_keypress autoloop now2 (Sequence KEY_BACKSPACE) e1 = Ok e.
Proof.
  intros Hm [Hc0 Hc1].
  destruct e as [t nid rm sel lip txt c cw gw tm sh ssh].
  simpl in Hm, Hc0, Hc1. subst rm.
  eexists. split; [reflexivity|].
  cbn [handle_keypress reading_mode current_text cursor_position negb
       with_current_text with_cursor_position tree node_id selected_index
       line_in_para column_width gap_width current_timer shuttle show_shuttle
       bind].
  rewrite slice_to_nonneg, slice_from_nonneg by lia.
  set (n := Z.to_nat c).
  assert (n <= length txt)%nat as Hn by (unfold Py.len in Hc1; lia).
  assert (truthy (firstn n txt ++ [key] ++ skipn n txt) = true) as ->.
  { destruct (firstn n txt); reflexivity. }
  cbn [andb].
  replace (c + 1 - 1) with c by lia.
  rewrite slice_to_nonneg, slice_from_nonneg by lia.
  fold n. replace (Z.to_nat (c + 1)) with (S n) by lia.
  change ([key] ++ skipn n txt) with (key :: skipn n txt).
  rewrite firstn_app_exact, skipn_app_exact, firstn_skipn by exact Hn.
  replace (Z.max 0 c) with c by lia.
  reflexivity.
Qed.

Lemma type_then_backspace_witness :
  exists e1,
    handle_keypress true 11 (Char "b"%char) typed_a_state = Ok e1 /\
    handle_keypress true 12 (Sequence KEY_BACKSPACE) e1 = Ok typed_a_state.
Proof.
  apply (@type_then_backspace true 11 12 "b"%char typed_a_state).
  - reflexivity.
  - vm_compute; split; congruence.
Defined.

(** ** The outline *)

Lemma preorder_rows_depth (node : Node) :
  forall (parent_text : Py.str) (depth : Z),
    Forall (fun row => depth <= row_depth row)
           (preorder_rows node parent_text depth).
Proof.
  induction node as [tx ch ct i pid IH] using Node_ind.
  intros parent_text depth. simpl. constructor; [simpl; lia|].
  induction IH as [|c ch Hc _ IHch]; simpl; [constructor|].
  apply Forall_app. split; [|exact IHch].
  eapply Forall_impl; [|apply (Hc tx (depth + 1))]. simpl. intros; lia.
Qed.

Lemma outline_line_deeper (prefix : Py.str) (base : Z) (row : Row) :
  base + 1 <= row_depth row ->
  outline_line (prefix ++ ["009"%char]) (base + 1) row
  = outline_line prefix base row.
Proof.
  intros H. unfold outline_line.
  replace (Z.to_nat (row_depth row - base))
    with (S (Z.to_nat (row_depth row - (base + 1)))) by lia.
  simpl repeat. rewrite <- !app_assoc. reflexivity.
Qed.

(** What [print_tree] writes below a node, in terms of the export rows. *)
Lemma print_tree_from_spec (node : Node) :
  forall (prefix : Py.str) (file_handle : list Py.str)
         (parent_text : Py.str) (depth : Z),
    print_tree_from node prefix file_handle =
      file_handle
        ++ map (outline_line prefix depth)
               (preorder_rows node parent_text depth).
Proof.
  induction node as [tx ch ct i pid IH] using Node_ind.
  intros prefix file_handle parent_text depth.
  assert (forall acc,
             fold_left (fun file_handle child =>
                          print_tree_from child (prefix ++ ["009"%char]) file_handle)
                       ch acc
             = acc ++ map (outline_line prefix depth)
                          (flat_map (fun child => preorder_rows child tx (depth + 1))
                                    ch)) as Hfold.
  { induction IH as [|c ch Hc _ IHch]; intros acc; simpl.
    - rewrite app_nil_r. reflexivity.
    - rewrite (Hc _ _ tx (depth + 1)), IHch, map_app, app_assoc.
      do 2 f_equal. apply map_ext_in. intros row Hrow.
      apply outline_line_deeper.
      pose proof (preorder_rows_depth c tx (depth + 1)) as Hd.
      rewrite Forall_forall in Hd. exact (Hd row Hrow). }
  simpl. rewrite Hfold, <- app_assoc. f_equal. simpl. f_equal.
  unfold outline_line. simpl. rewrite Z.sub_diag. reflexivity.
Qed.

(** X12.  [print_tree] on a tree whose root has no child raises
    [IndexError].  Otherwise it writes exactly one line per node of the
    subtree of the root's first child, in the pre-order of the export: the
    line of a node at depth d is d - 1 tabs, "- ", its text and a newline.
    The root and the subtrees of any further children of the root are not
    written; when the root has exactly one child the lines are those of all
    export rows but the root's. *)
Theorem print_tree_outline (self : Tree) :
  (children (root self) = [] ->
   print_tree self [] None (Py.lit "") = Raise IndexError) /\
  (forall first rest,
      children (root self) = first :: rest ->
      print_tree self [] None (Py.lit "")
      = Ok (map (outline_line (Py.lit "") 1)
                (preorder_rows first (text (root self)) 1)) /\
      length (preorder_rows first (text (root self)) 1) = node_count first /\
      (rest = [] ->
       text (root self) = Py.lit "" ->
       print_tree self [] None (Py.lit "")
       = Ok (map (outline_line (Py.lit "") 1) (tl (export_tree_to_csv self))))).
Proof.
  split.
  - intros H. unfold print_tree. rewrite H. reflexivity.
  - intros first rest H.
    assert (print_tree self [] None (Py.lit "")
            = Ok (map (outline_line (Py.lit "") 1)
                      (preorder_rows first (text (root self)) 1))) as Hp.
    { unfold print_tree. rewrite H.
      change (Py.getitem (first :: rest) 0) with (Ok first). unfold bind.
      rewrite (print_tree_from_spec first (Py.lit "") [] (text (root self)) 1).
      reflexivity. }
    split; [exact Hp|]. split.
    + rewrite <- nodes_length, <- (length_map id),
        <- (preorder_rows_ids first (text (root self)) 1).
      symmetry. apply length_map.
    + intros -> Ht. rewrite Hp. do 2 f_equal.
      unfold export_tree_to_csv. rewrite collect_node_data_spec.
      destruct (root self) as [tx ch ct i pid]. simpl in *. subst.
      simpl. rewrite app_nil_r. reflexivity.
Qed.

Lemma print_tree_outline_witness :
  print_tree hello_tree [] None (Py.lit "")
  = Ok (map (outline_line (Py.lit "") 1)
            (preorder_rows (mkNode (Py.lit "hello") [] 20 1 (Some 0))
                           (text (root hello_tree)) 1)) /\
  length (preorder_rows (mkNode (Py.lit "hello") [] 20 1 (Some 0))
                        (text (root hello_tree)) 1)
  = node_count (mkNode (Py.lit "hello") [] 20 1 (Some 0)) /\
  (@nil Node = [] ->
   text (root hello_tree) = Py.lit "" ->
   print_tree hello_tree [] None (Py.lit "")
   = Ok (map (outline_line (Py.lit "") 1) (tl (export_tree_to_csv hello_tree)))).
Proof.
  apply (proj2 (print_tree_outline hello_tree)
               (mkNode (Py.lit "hello") [] 20 1 (Some 0)) []).
  reflexivity.
Defined.

(** ** Start-up and shutdown *)

Lemma load_stream_spec (node : Node) :
  forall cs, load_stream node cs = cs ++ extremal_branch 0 node.
Proof.
  induction node as [tx ch ct i pid IH] using Node_ind. intros cs.
  destruct ch as [|c0 rest].
  - simpl. rewrite app_nil_r. reflexivity.
  - rewrite extremal_branch_eq. simpl.
    inversion IH as [|? ? Hc0 _]; subst.
    rewrite Hc0, <- app_assoc. reflexivity.
Qed.

Lemma extremal_branch_zeros (node : Node) :
  Forall (fun step => step = 0) (extremal_branch 0 node).
Proof.
  induction node as [tx ch ct i pid IH] using Node_ind.
  destruct ch as [|c0 rest]; [constructor|].
  rewrite extremal_branch_eq. simpl.
  inversion IH; subst. constructor; [reflexivity|assumption].
Qed.

(** X13.  Start-up.  Without a pickle file the editor is the initial one.
    With one, the editor holds the nodes of the loaded tree and discards the
    saved path: the new path consists of zeros only, resolves, and ends at a
    leaf (the leftmost lineage); the selection stays at 0 and the id counter
    at 1, whatever ids the loaded nodes carry. *)
Theorem startup_leftmost_path (autoloop : bool) (now : timestamp) :
  startup autoloop now None = Editor_init autoloop now /\
  forall loaded,
    let e := startup autoloop now (Some loaded) in
    root (tree e) = root loaded /\
    Forall (fun step => step = 0) (current_stream (tree e)) /\
    path_valid (tree e) /\
    at_leaf (tree e) /\
    selected_index e = 0 /\
    node_id e = 1.
Proof.
  split; [reflexivity|]. intros loaded. cbv zeta.
  unfold startup. simpl.
  rewrite load_stream_spec. simpl.
  destruct (extremal_branch_leaf 0 (root loaded)) as (leaf & Hl & Hc).
  repeat split.
  - apply extremal_branch_zeros.
  - exists leaf. rewrite node_at_index_whole. exact Hl.
  - exists leaf. cbn [current_stream]. rewrite node_at_index_whole.
    split; assumption.
Qed.

(** X14.  Shutdown on an empty tree.  When no fragment was ever submitted
    and no text is pending, the [KeyboardInterrupt] handler raises
    [IndexError] in [print_tree], before the tree is pickled and before the
    CSV is written, whatever [pickle.dump] would have done. *)
Theorem on_interrupt_empty_tree (autoloop : bool) (Pickle : Type)
        (pickle_dump : Tree -> result Pickle) (now : timestamp) (e : Editor) :
  children (root (tree e)) = [] ->
  current_text e = [] ->
  on_interrupt autoloop pickle_dump now e = Raise IndexError.
Proof.
  intros Hc Ht. unfold on_interrupt. rewrite Ht. simpl.
  unfold print_tree. rewrite Hc. reflexivity.
Qed.

Lemma on_interrupt_empty_tree_witness :
  on_interrupt true (fun t : Tree => Ok t) 20 (Editor_init true 10)
  = Raise IndexError.
Proof.
  apply (@on_interrupt_empty_tree true Tree (fun t : Tree => Ok t) 20
                                  (Editor_init true 10)); reflexivity.
Defined.

Lemma path_valid_first_child (self : Tree) :
  path_valid self ->
  1 <= Py.len (current_stream self) ->
  exists first rest, children (root self) = first :: rest.
Proof.
  intros [n Hn] Hl.
  destruct (node_at_index_prefix self (j := 1) Hn) as [m Hm]; [lia|].
  change 1 with (0 + 1) in Hm. rewrite node_at_index_succ in Hm by lia.
  rewrite node_at_index_nonpos in Hm by lia. simpl in Hm.
  apply bind_Ok_inv in Hm as (step & _ & Hm).
  destruct (children (root self)) as [|first rest]; [|eauto].
  unfold Py.getitem in Hm.
  destruct (_ || _); [discriminate|].
  destruct (Z.to_nat _); discriminate.
Qed.

(** X15.  Shutdown with pending text.  With a resolving path, the selection
    on the path or at its start, and a nonempty text being written, the
    [KeyboardInterrupt] handler submits the pending text first: the
    submission returns a tree with one node more whose path ends at a node
    holding that text.  The outline is written from that tree and is not
    empty, and that tree is what [pickle.dump] is called on.  If
    [pickle.dump] raises, the handler raises the same exception and no CSV is
    written; if it returns, the handler returns, with the outline, the
    pickle and the CSV rows exported from the same tree. *)
Theorem on_interrupt_flushes_text (autoloop : bool) (Pickle : Type)
        (pickle_dump : Tree -> result Pickle) (now : timestamp) (e : Editor) :
  editor_ok e ->
  truthy (current_text e) = true ->
  exists e1 flushed md,
    submit_para autoloop now e = Ok e1 /\
    node_count (root (tree e1)) = S (node_count (root (tree e))) /\
    node_at_index (tree e1) (Py.len (current_stream (tree e1))) = Ok flushed /\
    text flushed = current_text e /\
    print_tree (tree e1) [] None (Py.lit "") = Ok md /\
    md <> [] /\
    (forall raised,
        pickle_dump (tree e1) = Raise raised ->
        on_interrupt autoloop pickle_dump now e = Raise raised) /\
    (forall pickled,
        pickle_dump (tree e1) = Ok pickled ->
        on_interrupt autoloop pickle_dump now e
        = Ok (mkSaved md pickled (export_tree_to_csv (tree e1)))).
Proof.
  intros [Hv Hs] Ht. unfold on_interrupt. rewrite Ht.
  destruct (@grow_returns now (tree e) (current_text e) (selected_index e)
                          (node_id e) Hv Hs)
    as (t' & nid' & Hg & Hv' & Hlen).
  unfold submit_para. rewrite Hg. simpl bind. cbn [tree with_current_timer
    with_cursor_position with_current_text with_selected_index with_tree fst snd].
  destruct (@path_valid_first_child t' Hv') as (first & rest & Hch); [lia|].
  unfold print_tree. rewrite Hch.
  change (Py.getitem (first :: rest) 0) with (Ok first). cbn [bind].
  pose proof Hg as Hg'. unfold grow, Node_init in Hg'.
  apply bind_Ok_inv in Hg' as (sel & Hsel & Hg').
  apply bind_Ok_inv in Hg' as (root' & Hmod & Hg').
  injection Hg' as <- <-.
  pose proof (node_at_index_position _ _ Hsel) as Hres.
  do 3 eexists. split; [reflexivity|].
  cbn [tree with_current_timer with_cursor_position with_current_text
       with_selected_index with_tree fst snd].
  split; [|split; [|split; [|split; [|split; [|split]]]]].
  - cbn [root]. rewrite (modify_at_count _ _ _ Hres Hmod). simpl. lia.
  - cbn [current_stream]. rewrite node_at_index_whole.
    rewrite slice_to_nonneg by lia.
    rewrite resolve_app, (modify_at_resolve _ _ _ Hres Hmod). simpl.
    rewrite getitem_len_app. reflexivity.
  - reflexivity.
  - cbn [root] in Hch |- *. rewrite Hch. reflexivity.
  - rewrite (print_tree_from_spec first (Py.lit "") [] (Py.lit "") 1).
    destruct first as [tx ch ct i pid]. simpl. discriminate.
  - intros raised Hp. rewrite Hp. reflexivity.
  - intros pickled Hp. rewrite Hp. reflexivity.
Qed.

Lemma on_interrupt_flushes_text_witness :
  exists e1 flushed md,
    submit_para true 20 typed_a_state = Ok e1 /\
    node_count (root (tree e1)) = S (node_count (root (tree typed_a_state))) /\
    node_at_index (tree e1) (Py.len (current_stream (tree e1))) = Ok flushed /\
    text flushed = current_text typed_a_state /\
    print_tree (tree e1) [] None (Py.lit "") = Ok md /\
    md <> [] /\
    (forall raised,
        (fun t : Tree => Ok t) (tree e1) = Raise raised ->
        on_interrupt true (fun t : Tree => Ok t) 20 typed_a_state = Raise raised) /\
    (forall pickled,
        (fun t : Tree => Ok t) (tree e1) = Ok pickled ->
        on_interrupt true (fun t : Tree => Ok t) 20 typed_a_state
        = Ok (mkSaved md pickled (export_tree_to_csv (tree e1)))).
Proof.
  apply (@on_interrupt_flushes_text true Tree (fun t : Tree => Ok t) 20
                                    typed_a_state).
  - split; [eexists; reflexivity|vm_compute; split; congruence].
  - reflexivity.
Defined.

(** C4 (the code differs).  A tree saved by an earlier session and loaded at
    start-up, here [hello_tree], which [Tree()] and one [grow] built (ids 0
    and 1).  After start-up the class counter [Node.node_id] is 1, whatever
    ids the loaded nodes carry, so [grow("again", 0)] gives its node the id
    1.  The call returns, the node count grows by one and the path resolves
    to the new node; but the id of the new node is the id of the node
    "hello", created before it, and not a greater one: the ids of the tree
    are no longer pairwise distinct. *)
Theorem grow_after_load_repeats_id (autoloop : bool) :
  let e := startup autoloop 30 (Some hello_tree) in
  created hello_tree 2 /\
  path_valid (tree e) /\
  0 <= selected_index e <= Py.len (current_stream (tree e)) /\
  node_id e = 1 /\
  exists self' new_node older,
    grow 40 (tree e) (Py.lit "again") (selected_index e) (node_id e)
    = Ok (self', 2) /\
    node_count (root self') = S (node_count (root (tree e))) /\
    node_at_index self' (Py.len (current_stream self')) = Ok new_node /\
    text new_node = Py.lit "again" /\
    id new_node = 1 /\
    In older (nodes (root (tree e))) /\
    text older = Py.lit "hello" /\
    id older = 1 /\
    ~ id older < id new_node /\
    ~ NoDup (ids (root self')).
Proof.
  cbv zeta.
  split; [exact created_hello_tree|].
  split; [eexists; reflexivity|].
  split; [vm_compute; split; congruence|].
  split; [reflexivity|].
  exists (mkTree (mkNode (Py.lit "")
                         [mkNode (Py.lit "hello") [] 20 1 (Some 0);
                          mkNode (Py.lit "again") [] 40 1 (Some 0)]
                         10 0 None)
                 [1]),
    (mkNode (Py.lit "again") [] 40 1 (Some 0)),
    (mkNode (Py.lit "hello") [] 20 1 (Some 0)).
  split; [reflexivity|]. split; [reflexivity|]. split; [reflexivity|].
  split; [reflexivity|]. split; [reflexivity|].
  split; [simpl; right; left; reflexivity|].
  split; [reflexivity|]. split; [reflexivity|].
  split; [simpl; lia|].
  intros Hnd. vm_compute in Hnd.
  inversion Hnd as [|? ? _ Hnd1]. inversion Hnd1 as [|? ? Hnot _].
  apply Hnot. left. reflexivity.
Qed.

(** X16.  Ids across sessions.  When the tree loaded at start-up was built
    by an earlier process that created at least one node besides the root
    (its counter had reached 2 or more), the first fragment submitted after
    the load returns normally and its node gets id 1, an id a loaded node
    already carries: the ids of the tree are no longer unique. *)
Theorem reload_reuses_ids
        (autoloop : bool) (now0 now : timestamp) (pending : Py.str)
        (loaded : Tree) (counter : Z) :
  created loaded counter ->
  2 <= counter ->
  exists e' submitted,
    submit_para autoloop now
                (with_current_text pending (startup autoloop now0 (Some loaded)))
    = Ok e' /\
    node_at_index (tree e') (Py.len (current_stream (tree e'))) = Ok submitted /\
    id submitted = 1 /\
    In 1 (ids (root loaded)) /\
    ~ NoDup (ids (root (tree e'))).
Proof.
  intros Hc Hn.
  destruct (created_ids Hc) as [_ Hperm].
  assert (In 1 (ids (root loaded))) as Hin.
  { apply (Permutation_in _ (Permutation_sym Hperm)).
    unfold Py.range. change 1 with (Z.of_nat 1). apply in_map.
    apply in_seq. lia. }
  unfold submit_para, startup. cbv zeta.
  cbn [tree selected_index current_text node_id with_current_text with_tree
       Editor_init Tree_init Node_init fst snd root current_stream].
  unfold grow. rewrite node_at_index_nonpos by lia.
  cbn [bind root current_stream Z.to_nat firstn modify_at Node_init].
  do 2 eexists. split; [reflexivity|].
  cbn [tree with_current_timer with_cursor_position with_current_text
       with_selected_index with_tree fst snd root current_stream].
  split; [|split; [|split; [exact Hin|]]].
  - rewrite node_at_index_whole, resolve_app.
    replace (Py.slice_to (load_stream (root loaded) []) 0) with (@nil Z)
      by (unfold Py.slice_to; destruct (load_stream _ _); reflexivity).
    simpl resolve. unfold add_child. cbn [bind children].
    rewrite getitem_len_app. reflexivity.
  - reflexivity.
  - intros Hnd. destruct (root loaded) as [tx ch ct i pid].
    unfold add_child in Hnd. cbn [text children creation_time id parent_id] in Hnd.
    rewrite !ids_node in *. rewrite flat_map_app in Hnd. simpl in Hnd.
    apply (NoDup_remove_2 (i :: flat_map ids ch) [] 1 Hnd).
    rewrite app_nil_r. exact Hin.
Qed.

Lemma reload_reuses_ids_witness :
  exists e' submitted,
    submit_para true 40
                (with_current_text (Py.lit "again")
                                   (startup true 30 (Some hello_tree)))
    = Ok e' /\
    node_at_index (tree e') (Py.len (current_stream (tree e'))) = Ok submitted /\
    id submitted = 1 /\
    In 1 (ids (root hello_tree)) /\
    ~ NoDup (ids (root (tree e'))).
Proof.
  apply (@reload_reuses_ids true 30 40 (Py.lit "again") hello_tree 2).
  - exact created_hello_tree.
  - lia.
Defined.

(** ** Bounds of path resolution *)

Lemma getitem_raises {A} (l : list A) (i : Z) (e : exn) :
  Py.getitem l i = Raise e -> e = IndexError.
Proof.
  unfold Py.getitem. destruct (_ || _); [congruence|].
  destruct (nth_error l _); [discriminate|congruence].
Qed.

Lemma node_at_index_raises (self : Tree) (index : Z) (e : exn) :
  node_at_index self index = Raise e -> e = IndexError.
Proof.
  unfold node_at_index. generalize (root self) as node.
  induction (Py.range index) as [|i l IH]; intros node H; simpl in H;
    [discriminate|].
  destruct (Py.getitem (current_stream self) i) as [step|e1] eqn:E1; simpl in H.
  - destruct (Py.getitem (children node) step) as [c|e2] eqn:E2; simpl in H.
    + exact (IH c H).
    + injection H as <-. exact (getitem_raises _ _ E2).
  - injection H as <-. exact (getitem_raises _ _ E1).
Qed.

(** X17.  Bounds of [node_at_index] and [grow].  An index of 0 or less
    resolves to the root.  An index greater than the path length makes
    [node_at_index] raise [IndexError], and [grow] at such an index raises
    [IndexError] as well (no node is created). *)
Theorem node_at_index_bounds (now : timestamp) (self : Tree) (txt : Py.str)
        (index counter : Z) :
  (index <= 0 -> node_at_index self index = Ok (root self)) /\
  (Py.len (current_stream self) < index ->
   node_at_index self index = Raise IndexError /\
   grow now self txt index counter = Raise IndexError).
Proof.
  split; [apply node_at_index_nonpos|].
  intros Hi.
  assert (node_at_index self index = Raise IndexError) as H.
  { destruct (node_at_index self index) as [n|e] eqn:E.
    - pose proof (node_at_index_length _ _ E) as Hl.
      pose proof (len_nonneg (current_stream self)). lia.
    - rewrite (node_at_index_raises _ _ E). reflexivity. }
  split; [exact H|]. unfold grow. rewrite H. reflexivity.
Qed.

Lemma node_at_index_bounds_witness :
  node_at_index hello_tree 2 = Raise IndexError /\
  grow 30 hello_tree (Py.lit "x") 2 2 = Raise IndexError.
Proof.
  apply (proj2 (node_at_index_bounds 30 hello_tree (Py.lit "x") 2 2)).
  vm_compute; congruence.
Defined.

(** ** Submitting fragments *)

Lemma grow_result (now : timestamp) (self : Tree) (txt : Py.str)
      (index counter : Z) :
  path_valid self ->
  0 <= index <= Py.len (current_stream self) ->
  exists sel root',
    node_at_index self index = Ok sel /\
    grow now self txt index counter
    = Ok (mkTree root'
                 (firstn (Z.to_nat index) (current_stream self)
                    ++ [Py.len (children sel)]),
          counter + 1) /\
    resolve root' (firstn (Z.to_nat index) (current_stream self))
    = Ok (add_child sel (mkNode txt [] now counter (Some (id sel)))).
Proof.
  intros [last Hlast] Hi.
  destruct (node_at_index_prefix self (j := index) Hlast) as [sel Hsel]; [lia|].
  pose proof (node_at_index_position _ _ Hsel) as Hres.
  set (new := mkNode txt [] now counter (Some (id sel))).
  destruct (modify_at_defined new _ _ Hres) as [root' Hmod].
  exists sel, root'. split; [exact Hsel|]. split.
  - unfold grow. rewrite Hsel. simpl bind. cbv zeta. unfold Node_init.
    fold new. rewrite Hmod. simpl bind.
    rewrite slice_to_nonneg by lia. reflexivity.
  - exact (modify_at_resolve new _ _ Hres Hmod).
Qed.

Lemma firstn_app_all {A} (l l' : list A) : firstn (length l) (l ++ l') = l.
Proof.
  rewrite <- (Nat.add_0_r (length l)), firstn_app_2. simpl. apply app_nil_r.
Qed.

(** X18.  Two submissions in a row chain.  From a state with a resolving
    path and the selection on it, submitting a fragment and then a second
    one both return; the selection ends at the end of the path, two entries
    further; the second node is the only child of the first, carries the
    id after it and records it as its parent; both hold the texts that were
    submitted. *)
Theorem submit_twice_chains
        (autoloop : bool) (now1 now2 : timestamp) (t1 t2 : Py.str) (e : Editor) :
  editor_ok e ->
  exists e1 e2 first second,
    submit_para autoloop now1 (with_current_text t1 e) = Ok e1 /\
    submit_para autoloop now2 (with_current_text t2 e1) = Ok e2 /\
    selected_index e2 = selected_index e + 2 /\
    Py.len (current_stream (tree e2)) = selected_index e2 /\
    node_at_index (tree e2) (selected_index e2 - 1) = Ok first /\
    node_at_index (tree e2) (selected_index e2) = Ok second /\
    text first = t1 /\
    children first = [second] /\
    text second = t2 /\
    children second = [] /\
    parent_id second = Some (id first) /\
    id second = id first + 1.
Proof.
  intros [Hv Hs].
  destruct (@grow_result now1 (tree e) t1 (selected_index e) (node_id e) Hv Hs)
    as (sel & r1 & Hsel & Hg1 & Hr1).
  set (p := firstn (Z.to_nat (selected_index e)) (current_stream (tree e))) in *.
  set (k := Py.len (children sel)) in *.
  set (new1 := mkNode t1 [] now1 (node_id e) (Some (id sel))) in *.
  assert (length p = Z.to_nat (selected_index e)) as Hlp.
  { subst p. rewrite length_firstn. unfold Py.len in Hs. lia. }
  assert (resolve r1 (p ++ [k]) = Ok new1) as Hnew1.
  { rewrite resolve_app, Hr1. simpl. unfold k. rewrite getitem_len_app.
    reflexivity. }
  assert (path_valid (mkTree r1 (p ++ [k]))) as Hv1.
  { exists new1. rewrite node_at_index_whole. exact Hnew1. }
  assert (Py.len (p ++ [k]) = selected_index e + 1) as Hl1.
  { unfold Py.len. rewrite length_app, Hlp. simpl. lia. }
  destruct (@grow_result now2 (mkTree r1 (p ++ [k])) t2 (selected_index e + 1)
                         (node_id e + 1) Hv1)
    as (sel2 & r2 & Hsel2 & Hg2 & Hr2); [cbn [current_stream]; lia|].
  cbn [current_stream] in Hg2, Hr2.
  replace (Z.to_nat (selected_index e + 1)) with (length (p ++ [k])) in Hg2, Hr2
    by (rewrite length_app, Hlp; simpl; lia).
  rewrite firstn_all in Hg2, Hr2.
  rewrite <- Hl1 in Hsel2. rewrite node_at_index_whole, Hnew1 in Hsel2.
  injection Hsel2 as <-.
  set (new2 := mkNode t2 [] now2 (node_id e + 1) (Some (id new1))) in *.
  exists (with_current_timer (initial_timer autoloop)
            (with_cursor_position 0
               (with_current_text (Py.lit "")
                  (with_selected_index (selected_index e + 1)
                     (with_tree (mkTree r1 (p ++ [k])) (node_id e + 1)
                                (with_current_text t1 e)))))).
  eexists. exists (add_child new1 new2), new2.
  split.
  { unfold submit_para. cbn [tree current_text selected_index node_id
                             with_current_text].
    rewrite Hg1. reflexivity. }
  split.
  { unfold submit_para. cbn [tree current_text selected_index node_id
                             with_current_text with_current_timer
                             with_cursor_position with_selected_index with_tree].
    rewrite Hg2. reflexivity. }
  cbn [tree selected_index with_current_timer with_cursor_position
       with_current_text with_selected_index with_tree fst snd
       current_stream].
  assert (Py.len ((p ++ [k]) ++ [Py.len (children new1)])
          = selected_index e + 1 + 1) as Hl2.
  { rewrite len_app, Hl1. reflexivity. }
  split; [lia|]. split; [rewrite Hl2; reflexivity|].
  split; [|split; [|repeat split]].
  - replace (selected_index e + 1 + 1 - 1) with (Z.of_nat (length (p ++ [k])))
      by (unfold Py.len in Hl1; lia).
    rewrite node_at_index_resolve
      by (cbn [current_stream]; rewrite !length_app; simpl; lia).
    cbn [root current_stream]. rewrite firstn_app_all. exact Hr2.
  - rewrite <- Hl2, node_at_index_whole, resolve_app, Hr2. simpl.
    reflexivity.
Qed.

Lemma submit_twice_chains_witness :
  exists e1 e2 first second,
    submit_para true 20 (with_current_text (Py.lit "one") (Editor_init true 10))
    = Ok e1 /\
    submit_para true 30 (with_current_text (Py.lit "two") e1) = Ok e2 /\
    selected_index e2 = selected_index (Editor_init true 10) + 2 /\
    Py.len (current_stream (tree e2)) = selected_index e2 /\
    node_at_index (tree e2) (selected_index e2 - 1) = Ok first /\
    node_at_index (tree e2) (selected_index e2) = Ok second /\
    text first = Py.lit "one" /\
    children first = [second] /\
    text second = Py.lit "two" /\
    children second = [] /\
    parent_id second = Some (id first) /\
    id second = id first + 1.
Proof.
  apply (@submit_twice_chains true 20 30 (Py.lit "one") (Py.lit "two")
                              (Editor_init true 10)).
  split; [eexists; reflexivity|vm_compute; split; congruence].
Defined.

(** ** Entering reading mode *)



(** ** Autoscroll in reading mode *)

Section Autoscroll.

Variable autoloop : bool.

Lemma dispatch_all_app (ev1 ev2 : list (timestamp * Keystroke)) (e : Editor) :
  dispatch_all autoloop (ev1 ++ ev2) e
  = bind (dispatch_all autoloop ev1 e) (dispatch_all autoloop ev2).
Proof. unfold dispatch_all. apply foldM_app. Qed.

Lemma dispatch_all_timer_cons (now : timestamp) (nows : list timestamp)
      (e : Editor) :
  dispatch_all autoloop (timer_events (now :: nows)) e
  = bind (next_line autoloop e) (dispatch_all autoloop (timer_events nows)).
Proof. reflexivity. Qed.

(** In reading mode the timer scrolls to the end of the paragraph and then
    issues "next paragraph". *)
Lemma reading_reaches_next_para (m : nat) :
  forall (e : Editor) (n : Z),
    reading_mode e = true ->
    lines_in_current_para e = Ok n ->
    Z.to_nat (n - line_in_para e - 1) = m ->
    exists (k : nat) (l' : Z),
      (1 <= k)%nat /\
      forall nows,
        length nows = k ->
        dispatch_all autoloop (timer_events nows) e
        = Ok (next_para (with_line_in_para l' e) false).
Proof.
  induction m as [|m IH]; intros e n Hm Hn Hmeas.
  - exists 1%nat, (line_in_para e + 1). split; [lia|].
    intros [|now [|? ?]] Hlen; try discriminate.
    rewrite dispatch_all_timer_cons. unfold next_line. rewrite Hm. cbv zeta.
    replace (lines_in_current_para (with_line_in_para (line_in_para e + 1) e))
      with (lines_in_current_para e) by reflexivity.
    rewrite Hn. simpl bind.
    destruct (line_in_para e + 1 >=? n) eqn:E; [reflexivity|].
    rewrite Z.geb_leb in E. apply Z.leb_gt in E. lia.
  - set (e1 := with_line_in_para (line_in_para e + 1) e).
    destruct (IH e1 n) as (k & l' & Hk & Hrun);
      [exact Hm|exact Hn|simpl; lia|].
    exists (S k), l'. split; [lia|].
    intros [|now nows] Hlen; [discriminate|].
    rewrite dispatch_all_timer_cons. unfold next_line. rewrite Hm. cbv zeta.
    fold e1.
    replace (lines_in_current_para e1) with (lines_in_current_para e)
      by reflexivity.
    rewrite Hn. cbn [bind].
    destruct (line_in_para e1 >=? n) eqn:E.
    { apply Z.geb_le in E. simpl in E. lia. }
    cbn [bind]. rewrite Hrun by (simpl in Hlen; lia).
    destruct e; reflexivity.
Qed.

(** X20.  Autoscroll reaches the writing point.  In reading mode, from a
    state whose path resolves, with [selected_index] on the path, at most
    256 path entries and a column width of at least 1, some positive number
    of timer events (and no key) always brings the editor to writing mode at
    the end of the path: every run of that many timer events returns, with
    the tree and its path unchanged, [selected_index] equal to the path
    length and the line offset back at 0. *)
Theorem autoscroll_reaches_writing_point (e : Editor) :
  reading_mode e = true ->
  on_path e ->
  Py.len (current_stream (tree e)) <= 256 ->
  exists k : nat,
    (1 <= k)%nat /\
    forall nows,
      length nows = k ->
      exists e',
        dispatch_all autoloop (timer_events nows) e = Ok e' /\
        reading_mode e' = false /\
        tree e' = tree e /\
        selected_index e' = Py.len (current_stream (tree e)) /\
        line_in_para e' = 0.
Proof.
  remember (Z.to_nat (Py.len (current_stream (tree e)) - selected_index e))
    as d eqn:Hd.
  revert e Hd. induction d as [|d IH]; intros e Hd Hm He Hl.
  - pose proof He as (_ & Hs & _).
    destruct (lines_in_current_para_returns He) as [n Hn].
    destruct (@reading_reaches_next_para _ e n Hm Hn eq_refl)
      as (k & l' & Hk & Hrun).
    exists k. split; [exact Hk|]. intros nows Hlen.
    rewrite (Hrun nows Hlen). eexists. split; [reflexivity|].
    unfold next_para. cbv zeta.
    cbn [selected_index tree with_line_in_para].
    assert (Py.is_int (selected_index e) (Py.len (current_stream (tree e)))
            = true) as ->.
    { unfold Py.is_int.
      replace (selected_index e) with (Py.len (current_stream (tree e))) by lia.
      rewrite Z.eqb_refl. simpl.
      apply andb_true_iff. split; apply Z.leb_le; lia. }
    simpl. repeat split. lia.
  - pose proof He as (Hv & Hs & Hw).
    destruct (lines_in_current_para_returns He) as [n Hn].
    destruct (@reading_reaches_next_para _ e n Hm Hn eq_refl)
      as (k1 & l' & Hk1 & Hrun1).
    set (e2 := with_selected_index (selected_index e + 1)
                 (with_line_in_para 0 (with_line_in_para l' e))).
    assert (next_para (with_line_in_para l' e) false = e2) as Hnext.
    { unfold next_para. cbv zeta.
      cbn [selected_index tree with_line_in_para].
      rewrite is_int_lt by lia. reflexivity. }
    assert (d = Z.to_nat (Py.len (current_stream (tree e2)) - selected_index e2))
      as Hd2 by (subst e2; simpl; lia).
    assert (on_path e2) as He2
        by (subst e2; unfold on_path; simpl; repeat split; auto; lia).
    destruct (IH e2 Hd2 Hm He2 Hl) as (k2 & Hk2 & Hrun2).
    exists (k1 + k2)%nat. split; [lia|]. intros nows Hlen.
    rewrite <- (firstn_skipn k1 nows). unfold timer_events.
    rewrite map_app. fold (timer_events (firstn k1 nows)).
    fold (timer_events (skipn k1 nows)).
    rewrite dispatch_all_app, Hrun1 by (rewrite length_firstn; lia).
    cbn [bind]. rewrite Hnext.
    assert (length (skipn k1 nows) = k2) as Hlen2
        by (rewrite length_skipn; lia).
    destruct (Hrun2 (skipn k1 nows) Hlen2)
      as (e' & Hrun & Hmode & Htree & Hsel & Hline).
    exists e'. split; [exact Hrun|]. repeat split; auto.
Qed.

End Autoscroll.

Lemma autoscroll_reaches_writing_point_witness :
  exists k : nat,
    (1 <= k)%nat /\
    forall nows,
      length nows = k ->
      exists e',
        dispatch_all true (timer_events nows) reading_hello_state = Ok e' /\
        reading_mode e' = false /\
        tree e' = tree reading_hello_state /\
        selected_index e' = Py.len (current_stream (tree reading_hello_state)) /\
        line_in_para e' = 0.
Proof.
  apply (@autoscroll_reaches_writing_point true reading_hello_state).
  - reflexivity.
  - split; [eexists; reflexivity|]. split; vm_compute; try split; congruence.
  - vm_compute; congruence.
Defined.
